(** * upload-visualize-app: image batch intake and analysis aggregation

    A shallow embedding of the two React components that carry the
    application's logic and of the page that wires them together:

    - [src/components/ImageUpload.tsx]: [processFiles], the [img.onload]
      callback it registers, [removeImage] and the "Clear Batch" handler;
    - the page component [Index]: [handleImagesChange], [handleImageSelect];
    - [src/components/AnalysisPanel.tsx]: [formatAnalysis],
      [currentImageAnalysis], [analysisData], [detectionData].

    JavaScript numbers are IEEE 754 binary64 values and are embedded as the
    kernel's primitive floats, so that [0 / 0] is [nan] here as it is there.
    React state is passed explicitly: every handler is a function of the
    state its closure reads and returns the state its [set...] calls leave.
    Which render's closure an event reaches is React's business and is not
    part of the embedding. *)

From Stdlib Require Import List String Ascii ZArith NArith Bool Arith Lia.
From Stdlib Require Import Permutation Sorted DecimalString DecimalN.
From Stdlib Require Import PrimFloat FloatOps SpecFloat Uint63.
Import ListNotations.

Set Warnings "-inexact-float".

(** ** The JavaScript built-ins the components call *)

Module JS.

(** *** Numbers *)

Definition number := float.

(** An array length or a counter as a number (exact below 2^53). *)
Definition of_nat (n : nat) : number :=
  PrimFloat.of_uint63 (Uint63.of_Z (Z.of_nat n)).

Definition of_int (n : Z) : number :=
  if (n <? 0)%Z then PrimFloat.opp (PrimFloat.of_uint63 (Uint63.of_Z (- n)))
  else PrimFloat.of_uint63 (Uint63.of_Z n).

(** [Math.round]: the integral number closest to [x], the one towards
    +infinity on a tie; NaN, the infinities, the zeros and numbers that are
    already integral are returned as they are; a result of zero keeps the
    sign of [x].  A finite [x] is [+-m * 2^e]; for [e < 0] the result is
    [floor (x + 1/2)], computed exactly on integers. *)
Definition Math_round (x : number) : number :=
  match Prim2SF x with
  | S754_finite s m e =>
      if (0 <=? e)%Z then x
      else
        let k := (2 ^ (- e))%Z in
        let v := if s then Z.neg m else Z.pos m in
        let n := ((2 * v + k) / (2 * k))%Z in
        if (n =? 0)%Z then (if s then neg_zero else zero) else of_int n
  | _ => x
  end.

(** *** Strings (ASCII text: one [ascii] per UTF-16 code unit) *)

Definition upper_char (c : ascii) : ascii :=
  let n := nat_of_ascii c in
  if (97 <=? n) && (n <=? 122) then ascii_of_nat (n - 32) else c.

(** [s.toUpperCase()] *)
Fixpoint toUpperCase (s : string) : string :=
  match s with
  | EmptyString => EmptyString
  | String c r => String (upper_char c) (toUpperCase r)
  end.

(** [s.split(sep)] for a one-character separator: never empty. *)
Fixpoint split (sep : ascii) (s : string) : list string :=
  match s with
  | EmptyString => [EmptyString]
  | String c r =>
      if Ascii.eqb c sep then EmptyString :: split sep r
      else match split sep r with
           | seg :: rest => String c seg :: rest
           | [] => [String c EmptyString]
           end
  end.

(** [a.pop()]: the last element, [undefined] on an empty array. *)
Fixpoint pop {A : Type} (a : list A) : option A :=
  match a with
  | [] => None
  | [x] => Some x
  | _ :: r => pop r
  end.

(** [s.startsWith(p)] *)
Definition startsWith (s p : string) : bool := String.prefix p s.

(** [s.charAt(0).toUpperCase() + s.slice(1)] *)
Definition capitalize (s : string) : string :=
  match s with
  | EmptyString => EmptyString
  | String c r => String (upper_char c) r
  end.

(** A non-negative integer in a template literal. *)
Definition N_toString (n : N) : string := NilEmpty.string_of_uint (N.to_uint n).

(** *** Arrays *)

(** [a.slice(0, e)]: a negative [e] counts from the end. *)
Definition slice0 {A : Type} (e : Z) (a : list A) : list A :=
  let len := Z.of_nat (List.length a) in
  let k := if (e <? 0)%Z then Z.max (len + e) 0 else Z.min e len in
  firstn (Z.to_nat k) a.

(** [a.sort(cmp)] is stable.  [sort_desc key] is the sort under the
    comparator [(a, b) => key(b) - key(a)]: descending in [key], elements
    of equal key left in their order. *)
Section Sort.
Context {A : Type} (key : A -> nat).

Fixpoint insert_desc (x : A) (l : list A) : list A :=
  match l with
  | [] => [x]
  | y :: r => if key y <=? key x then x :: l else y :: insert_desc x r
  end.

Definition sort_desc (l : list A) : list A := fold_right insert_desc [] l.
End Sort.

(** *** Plain objects used as dictionaries

    An object literal [{}] has its own properties, kept here in creation
    order, and inherits the members of [Object.prototype]. *)

Definition obj (V : Type) := list (string * V).

Section Obj.
Context {V : Type}.

(** Own property lookup. *)
Fixpoint get (k : string) (o : obj V) : option V :=
  match o with
  | [] => None
  | (k', v) :: r => if String.eqb k' k then Some v else get k r
  end.

(** [o[k] = v]: an existing own property keeps its place, a new one is
    created last. *)
Fixpoint set (k : string) (v : V) (o : obj V) : obj V :=
  match o with
  | [] => [(k, v)]
  | (k', v') :: r =>
      if String.eqb k' k then (k', v) :: r else (k', v') :: set k v r
  end.

(** An array index: the canonical decimal form of an integer in
    [0, 2^32 - 2]. *)
Definition arrayIndex (k : string) : option N :=
  match NilEmpty.uint_of_string k with
  | Some u =>
      let n := N.of_uint u in
      if String.eqb (N_toString n) k && (n <=? 4294967294)%N
      then Some n else None
  | None => None
  end.

Definition isArrayIndex (k : string) : bool :=
  match arrayIndex k with Some _ => true | None => false end.

Definition index_of (p : string * V) : N :=
  match arrayIndex (fst p) with Some n => n | None => 0%N end.

Fixpoint insert_index (p : string * V) (l : obj V) : obj V :=
  match l with
  | [] => [p]
  | q :: r =>
      if (index_of p <=? index_of q)%N then p :: l
      else q :: insert_index p r
  end.

(** [Object.entries(o)]: own properties whose key is an array index
    first, in ascending numeric order, then the other string keys in
    creation order. *)
Definition entries (o : obj V) : list (string * V) :=
  fold_right insert_index [] (filter (fun p => isArrayIndex (fst p)) o)
  ++ filter (fun p => negb (isArrayIndex (fst p))) o.
End Obj.

(** The property names every object inherits from [Object.prototype]
    (ECMAScript, with the legacy accessors of its Annex B).  Reading one of
    them on [{}] yields a function (or, for [__proto__], the prototype
    object): a truthy value that is not an own property. *)
Definition prototypeKeys : list string :=
  [ "constructor"; "__defineGetter__"; "__defineSetter__"; "hasOwnProperty";
    "__lookupGetter__"; "__lookupSetter__"; "isPrototypeOf";
    "propertyIsEnumerable"; "toString"; "valueOf"; "__proto__";
    "toLocaleString" ]%string.

Definition inherited (k : string) : bool :=
  existsb (String.eqb k) prototypeKeys.

End JS.


(** ** [ImageUpload.tsx] and the page component [Index] *)

Module Upload.

(** The fields of a DOM [File] the code reads. *)
Record File := mkFile {
  file_name : string;
  file_type : string;
  file_size : N
}.

Record UploadedImage := mkImage {
  id : string;
  file : File;
  url : string;
  name : string;
  size : N;
  width : option N;
  height : option N
}.

(** The React state of [ImageUpload] ([images], [uploading],
    [uploadProgress]) and of [Index] ([pageImages] for its own [images],
    [selectedImage]). *)
Record State := mkState {
  images : list UploadedImage;
  uploading : bool;
  uploadProgress : JS.number;
  pageImages : list UploadedImage;
  selectedImage : option UploadedImage
}.

Definition setImages (v : list UploadedImage) (st : State) : State :=
  mkState v (uploading st) (uploadProgress st) (pageImages st) (selectedImage st).
Definition setUploading (v : bool) (st : State) : State :=
  mkState (images st) v (uploadProgress st) (pageImages st) (selectedImage st).
Definition setUploadProgress (v : JS.number) (st : State) : State :=
  mkState (images st) (uploading st) v (pageImages st) (selectedImage st).
Definition setPageImages (v : list UploadedImage) (st : State) : State :=
  mkState (images st) (uploading st) (uploadProgress st) v (selectedImage st).
Definition setSelectedImage (v : option UploadedImage) (st : State) : State :=
  mkState (images st) (uploading st) (uploadProgress st) (pageImages st) v.

Definition initial : State := mkState [] false zero [] None.

(** *** [Index] *)

(** [handleImagesChange]: [sel] is the [selectedImage] its closure holds. *)
Definition handleImagesChange (sel : option UploadedImage)
    (newImages : list UploadedImage) (st : State) : State :=
  let st := setPageImages newImages st in
  match newImages, sel with
  | first :: _, None => setSelectedImage (Some first) st
  | _, _ => st
  end.

(** [handleImageSelect]; [removeImage] also passes [null]. *)
Definition handleImageSelect (image : option UploadedImage) (st : State) : State :=
  setSelectedImage image st.

(** *** [ImageUpload] *)

(** What one call of [processFiles] leaves for its callbacks: the [images]
    and [filesToProcess] they close over, the [selectedImage] that the
    [onImagesChange] they call closes over, and the [newImages] array they
    share. *)
Record Pending := mkPending {
  capturedImages : list UploadedImage;
  capturedSelected : option UploadedImage;
  filesToProcess : list File;
  newImages : list UploadedImage
}.

Definition imageFiles (files : list File) : list File :=
  filter (fun f => JS.startsWith (file_type f) "image/") files.

Definition remainingSlots (maxImages : Z) (st : State) : Z :=
  (maxImages - Z.of_nat (List.length (images st)))%Z.

Definition toProcess (maxImages : Z) (files : list File) (st : State) : list File :=
  JS.slice0 (remainingSlots maxImages st) (imageFiles files).

(** [processFiles], up to the point where every [FileReader] has been
    started: nothing happens when no file is left to process.  [st] holds
    what the closure reads: [images st] is its [images], and
    [selectedImage st] the [selectedImage] of the [onImagesChange] it was
    given. *)
Definition processFiles (maxImages : Z) (files : list File) (st : State)
    : State * option Pending :=
  match toProcess maxImages files st with
  | [] => (st, None)
  | ftp => (setUploadProgress zero (setUploading true st),
            Some (mkPending (images st) (selectedImage st) ftp []))
  end.

(** The completion of one decode: [img.onload] of the file at [index],
    with the clock, the data URL and the dimensions it finds. *)
Record Loaded := mkLoaded {
  index : nat;
  now : N;
  result : string;
  img_width : N;
  img_height : N
}.

Definition uploadedImage (f : File) (ev : Loaded) : UploadedImage :=
  mkImage (JS.N_toString (now ev) ++ "-" ++ JS.N_toString (N.of_nat (index ev)))
          f (result ev) (file_name f) (file_size f)
          (Some (img_width ev)) (Some (img_height ev)).

(** [img.onload]: push, report progress and, once [newImages] is as long
    as [filesToProcess], publish the batch. *)
Definition img_onload (ev : Loaded) (sp : State * Pending) : State * Pending :=
  let (st, p) := sp in
  match nth_error (filesToProcess p) (index ev) with
  | None => sp
  | Some f =>
      let newImages' := newImages p ++ [uploadedImage f ev] in
      let p' := mkPending (capturedImages p) (capturedSelected p)
                          (filesToProcess p) newImages' in
      let total := List.length (filesToProcess p) in
      let st := setUploadProgress
                  (JS.of_nat (List.length newImages') / JS.of_nat total * 100)%float st in
      if List.length newImages' =? total then
        let updatedImages := capturedImages p ++ newImages' in
        let st := setImages updatedImages st in
        let st := handleImagesChange (capturedSelected p) updatedImages st in
        (setUploadProgress zero (setUploading false st), p')
      else (st, p')
  end.

(** The decode completions, in the order [events] in which they happen. *)
Definition run (events : list Loaded) (sp : State * Pending) : State * Pending :=
  fold_left (fun sp ev => img_onload ev sp) events sp.

(** One submission: [processFiles] followed by the completions of the
    decodes it started. *)
Definition submit (maxImages : Z) (files : list File) (events : list Loaded)
    (st : State) : State :=
  match processFiles maxImages files st with
  | (st', None) => st'
  | (st', Some p) => fst (run events (st', p))
  end.

(** [removeImage] *)
Definition removeImage (rid : string) (st : State) : State :=
  let updatedImages := filter (fun img => negb (String.eqb (id img) rid)) (images st) in
  let st' := handleImagesChange (selectedImage st) updatedImages
               (setImages updatedImages st) in
  match selectedImage st with
  | Some s =>
      if String.eqb (id s) rid
      then handleImageSelect (hd_error updatedImages) st'
      else st'
  | None => st'
  end.

(** The [onClick] of the "Clear Batch" button. *)
Definition clearBatch (st : State) : State :=
  handleImagesChange (selectedImage st) [] (setImages [] st).

(** The [onClick] of a tile of the image grid. *)
Definition selectImage (image : UploadedImage) (st : State) : State :=
  handleImageSelect (Some image) st.

(** [selectedImage] is [null] or has the [id] of an image of the batch. *)
Definition selection_ok (st : State) : bool :=
  match selectedImage st with
  | None => true
  | Some s => existsb (fun img => String.eqb (id img) (id s)) (pageImages st)
  end.

(** A batch that is not empty has a selection. *)
Definition has_default (st : State) : Prop :=
  images st <> [] -> selectedImage st <> None.

(** The two copies of the batch agree, the selection names an image of the
    batch, and a batch that is not empty has a selection. *)
Definition consistent (st : State) : Prop :=
  pageImages st = images st
  /\ selection_ok st = true
  /\ (images st <> [] -> selectedImage st <> None).

End Upload.

(** ** [AnalysisPanel.tsx] *)

Module Analysis.

Record Detection := mkDetection {
  class_name : string;
  conf : JS.number;
  bbox : list JS.number
}.

Record ImageAnalysis := mkImageAnalysis {
  image_name : string;
  format : string;
  size_mb : JS.number;
  input_image_url : string;
  annotated_image_url : string;
  domain : string;
  labels : list string;
  detections : list Detection
}.

Record Summary := mkSummary {
  total_images : JS.number;
  total_size_mb : JS.number;
  average_size_mb : JS.number;
  unique_labels : list string
}.

Record AnalysisResult := mkAnalysisResult {
  summary : Summary;
  images : list ImageAnalysis
}.

(** *** [formatAnalysis] *)

(** [img.name.split('.').pop()?.toUpperCase() || 'UNKNOWN']: the empty
    string is the only falsy string. *)
Definition ext (img : Upload.UploadedImage) : string :=
  match option_map JS.toUpperCase (JS.pop (JS.split "." (Upload.name img))) with
  | Some (String c r) => String c r
  | _ => "UNKNOWN"
  end.

(** The reducer: [acc[ext] = (acc[ext] || 0) + 1].  An upper-cased string
    is never the name of a member of [Object.prototype] (lemma
    [ext_not_inherited] below), so [acc[ext]] reads an own property or
    [undefined]. *)
Definition countFormat (acc : JS.obj nat) (img : Upload.UploadedImage) : JS.obj nat :=
  let e := ext img in
  JS.set e (match JS.get e acc with Some (S n) => S n | _ => 0 end + 1) acc.

Definition formatAnalysis (images : list Upload.UploadedImage) : list (string * nat) :=
  JS.entries (fold_left countFormat images []).

(** *** [analysisData] *)

(** [analysisResult?.images.find(img => selectedImage && img.image_name === selectedImage.name)] *)
Definition currentImageAnalysis (selectedImage : option Upload.UploadedImage)
    (analysisResult : option AnalysisResult) : option ImageAnalysis :=
  match analysisResult with
  | None => None
  | Some r =>
      find (fun img => match selectedImage with
                       | Some s => String.eqb (image_name img) (Upload.name s)
                       | None => false
                       end) (images r)
  end.

(** [dets.reduce((avg, det) => avg + det.conf, 0)] *)
Definition sumConf (dets : list Detection) : JS.number :=
  fold_left (fun avg det => (avg + conf det)%float) dets zero.

(** A template literal, kept as its pieces: literal text, an interpolated
    string, an interpolated array length, an interpolated number. *)
Inductive Piece :=
| Lit (s : string)
| Str (s : string)
| Len (n : nat)
| Num (x : JS.number).

Record SummaryView := mkSummaryView {
  description : list Piece;
  summaryLabels : list string;
  confidence : JS.number
}.

Record DashboardView := mkDashboardView {
  detectionCount : nat;
  averageConfidence : JS.number;
  processingTime : string
}.

Record AnalysisData := mkAnalysisData {
  summaryView : SummaryView;
  dashboard : DashboardView
}.

Definition placeholder : list Piece :=
  [Lit "Upload and analyze images to see results here."].

Definition analysisData (selectedImage : option Upload.UploadedImage)
    (analysisResult : option AnalysisResult) : AnalysisData :=
  let current := currentImageAnalysis selectedImage analysisResult in
  match analysisResult with
  | Some r =>
      mkAnalysisData
        (mkSummaryView
           (match selectedImage, current with
            | Some s, Some c =>
                [Lit "Analysis of "; Str (Upload.name s); Lit " detected ";
                 Len (List.length (detections c)); Lit " objects in ";
                 Str (domain c); Lit " domain."]
            | _, _ =>
                [Lit "Analysis of "; Num (total_images (summary r));
                 Lit " images with ";
                 Len (List.length (unique_labels (summary r)));
                 Lit " unique labels detected."]
            end)
           (unique_labels (summary r))
           (match current with
            | Some c =>
                JS.Math_round
                  (sumConf (detections c)
                   / JS.of_nat (List.length (detections c)) * 100)%float
            | None => zero
            end))
        (mkDashboardView
           (fold_left (fun total img => total + List.length (detections img))
                      (images r) 0)
           (JS.Math_round
              (fold_left
                 (fun total img =>
                    (total + sumConf (detections img)
                             / JS.of_nat (List.length (detections img)))%float)
                 (images r) zero
               / JS.of_nat (List.length (images r)) * 100)%float)
           "2.4s")
  | None =>
      mkAnalysisData
        (mkSummaryView placeholder [] zero)
        (mkDashboardView 0 zero "0s")
  end.

(** *** [detectionData] *)

Record Group := mkGroup { count : nat; totalConf : JS.number }.

(** The body of [img.detections.forEach].  When [class_name] names a
    member of [Object.prototype], [acc[className]] is that member: truthy,
    so no own property is created, and the two updates land on the
    member. *)
Definition countDetection (acc : JS.obj Group) (det : Detection) : JS.obj Group :=
  let className := class_name det in
  if JS.inherited className then acc
  else
    let g := match JS.get className acc with
             | Some g => g
             | None => mkGroup 0 zero
             end in
    JS.set className (mkGroup (count g + 1) (totalConf g + conf det)%float) acc.

Definition groupDetections (r : AnalysisResult) : JS.obj Group :=
  fold_left (fun acc img => fold_left countDetection (detections img) acc)
            (images r) [].

Record Row := mkRow {
  rowName : string;
  rowCount : nat;
  rowConfidence : JS.number
}.

Definition toRow (e : string * Group) : Row :=
  let (name, data) := e in
  mkRow (JS.capitalize name) (count data)
        (JS.Math_round (totalConf data / JS.of_nat (count data) * 100)%float).

Definition detectionData (analysisResult : option AnalysisResult) : list Row :=
  match analysisResult with
  | Some r => JS.sort_desc rowCount (map toRow (JS.entries (groupDetections r)))
  | None => []
  end.

(** *** The values the panel renders from *)

Record ViewModel := mkViewModel {
  formatData : list (string * nat);
  analysis : AnalysisData;
  detection : list Row
}.

Definition aggregate (images : list Upload.UploadedImage)
    (selectedImage : option Upload.UploadedImage)
    (analysisResult : option AnalysisResult) : ViewModel :=
  mkViewModel (formatAnalysis images)
              (analysisData selectedImage analysisResult)
              (detectionData analysisResult).

End Analysis.

(** ** The event handlers of [ImageUpload] *)

Module Handlers.
Import Upload.

(** [handleDrag]: the [dragActive] flag after a drag event of type [type]. *)
Definition handleDrag (type : string) (dragActive : bool) : bool :=
  if String.eqb type "dragenter" || String.eqb type "dragover" then true
  else if String.eqb type "dragleave" then false
  else dragActive.

(** [processFiles] as the closure of one render: [env] is the state that
    render saw, which the closure reads ([images], and the [selectedImage]
    of the [onImagesChange] it was given); [st] is the state at the time of
    the call, which its [set...] calls update. *)
Definition processFilesOf (env : State) (maxImages : Z) (files : list File)
    (st : State) : State * option Pending :=
  match toProcess maxImages files env with
  | [] => (st, None)
  | ftp => (setUploadProgress zero (setUploading true st),
            Some (mkPending (images env) (selectedImage env) ftp []))
  end.

(** A submission through the closure of the render that saw [env]:
    [processFiles], then the completions of the decodes it started. *)
Definition submitOf (env : State) (maxImages : Z) (files : list File)
    (events : list Loaded) (st : State) : State :=
  match processFilesOf env maxImages files st with
  | (st', None) => st'
  | (st', Some p) => fst (run events (st', p))
  end.

(** [handleDrop] is [useCallback(..., [])]: with an empty dependency list
    React keeps the function of the first render for good, and the
    [processFiles] that function names is the first render's, whose state
    is [initial].  [maxImages] is the value of the first render. *)
Definition handleDrop (maxImages : Z) (files : list File) (ds : bool * State)
    : bool * (State * option Pending) :=
  (false, processFilesOf initial maxImages files (snd ds)).

(** [handleFileSelect], memoised the same way; [files] is [e.target.files],
    which may be [null]. *)
Definition handleFileSelect (maxImages : Z) (files : option (list File))
    (st : State) : State * option Pending :=
  processFilesOf initial maxImages
                 (match files with Some l => l | None => [] end) st.

(** A drop followed by the completions of the decodes it started. *)
Definition dropped (maxImages : Z) (files : list File) (events : list Loaded)
    (st : State) : State :=
  match snd (handleDrop maxImages files (true, st)) with
  | (st', None) => st'
  | (st', Some p) => fst (run events (st', p))
  end.

(** The batch of the running component: both copies agree, no two images
    share an id, and there are at most [maxImages] of them. *)
Definition batch_ok (maxImages : Z) (st : State) : Prop :=
  pageImages st = images st
  /\ NoDup (map id (images st))
  /\ (Z.of_nat (List.length (images st)) <= maxImages)%Z.

End Handlers.

(** ** Vocabulary of the statements *)

Module Spec.
Import Upload.

(** The descriptors [img.onload] builds for a sequence of completions, in
    that sequence's order. *)
Definition completed (ftp : list File) (events : list Loaded) : list UploadedImage :=
  flat_map (fun ev => match nth_error ftp (index ev) with
                      | Some f => [uploadedImage f ev]
                      | None => []
                      end) events.

(** Every started decode completes, once: the completions are the indices
    of [ftp] in some order. *)
Definition all_complete (ftp : list File) (events : list Loaded) : Prop :=
  Permutation (map index events) (seq 0 (List.length ftp)).

(** The descriptors a submission adds to a batch that held [before]. *)
Definition admitted (before after : State) : list UploadedImage :=
  skipn (List.length (images before)) (images after).

(** The last [n] descriptors of the batch of [st]. *)
Definition newest (n : nat) (st : State) : list UploadedImage :=
  skipn (List.length (images st) - n) (images st).

(** The admitted descriptors are those of the accepted candidates, in the
    candidates' order. *)
Definition in_submission_order (maxImages : Z) (files : list File)
    (events : list Loaded) (st : State) : Prop :=
  map file (admitted st (submit maxImages files events st))
  = toProcess maxImages files st.

End Spec.

Module Text.

(** A lower-case ASCII letter. *)
Definition is_lower (c : ascii) : bool :=
  (97 <=? nat_of_ascii c) && (nat_of_ascii c <=? 122).

Definition has_lower (s : string) : bool :=
  existsb is_lower (list_ascii_of_string s).

End Text.

Module Distribution.
Import Analysis.

(** Descending in [key]. *)
Definition descending {A : Type} (key : A -> nat) (a b : A) : Prop :=
  key b <= key a.

(** The dictionary that holds, for the keys [ks] in that order of
    creation, the values [F] gives them. *)
Definition tabulate {V : Type} (F : string -> V) (ks : list string) : JS.obj V :=
  map (fun k => (k, F k)) ks.

(** All detections of an analysis result, image by image. *)
Definition allDetections (r : AnalysisResult) : list Detection :=
  flat_map detections (images r).

(** The distinct labels of a list, each at its first occurrence. *)
Fixpoint first_seen (l : list string) : list string :=
  match l with
  | [] => []
  | x :: r => x :: filter (fun y => negb (String.eqb y x)) (first_seen r)
  end.

(** The detections that carry the label [l], in their order. *)
Definition group_of (l : string) (ds : list Detection) : list Detection :=
  filter (fun d => String.eqb (class_name d) l) ds.

(** The row of one label: the label with its first character in upper
    case, the number of its detections, and the mean of their confidences
    (summed in their order) as a rounded percentage. *)
Definition label_row (ds : list Detection) (l : string) : Row :=
  let g := group_of l ds in
  mkRow (JS.capitalize l) (List.length g)
        (JS.Math_round (sumConf g / JS.of_nat (List.length g) * 100)%float).

(** What the dictionary of [detectionData] holds for the label [l]. *)
Definition group_data (ds : list Detection) (l : string) : Group :=
  mkGroup (List.length (group_of l ds)) (sumConf (group_of l ds)).

(** One row per distinct label, in first-seen order. *)
Definition by_label (ds : list Detection) : list Row :=
  map (label_row ds) (first_seen (map class_name ds)).

(** A label that is neither the name of a member of [Object.prototype]
    nor an array index. *)
Definition plain (l : string) : Prop :=
  JS.inherited l = false /\ JS.isArrayIndex l = false.

(** Every row shows a label exactly as some detection gives it. *)
Definition case_preserved (r : AnalysisResult) : Prop :=
  forall row, In row (detectionData (Some r)) ->
              In (rowName row) (map class_name (allDetections r)).

(** The mean confidence of one image's detections. *)
Definition image_mean (img : ImageAnalysis) : JS.number :=
  (sumConf (detections img) / JS.of_nat (List.length (detections img)))%float.

(** The two-level average as the spec words it: the mean, over the images
    that have a detection, of each image's mean confidence, as a rounded
    percentage; 0 when no image has a detection. *)
Definition two_level_average (r : AnalysisResult) : JS.number :=
  match filter (fun img => negb (Nat.eqb (List.length (detections img)) 0)) (images r) with
  | [] => zero
  | detected =>
      JS.Math_round
        (fold_left (fun total img => (total + image_mean img)%float) detected zero
         / JS.of_nat (List.length detected) * 100)%float
  end.

End Distribution.

(** ** Inputs used by the examples *)

Module Ex.
Import Upload.

Definition png (n : string) : File := mkFile n "image/png" 1024.
Definition txt (n : string) : File := mkFile n "text/plain" 10.

Definition two_files : list File := [png "a.png"; png "b.png"].

Definition loaded (i : nat) (t : N) : Loaded := mkLoaded i t "data:image/png;base64," 640 480.

(** The second file's decode completes first. *)
Definition second_first : list Loaded := [loaded 1 1700000000000; loaded 0 1700000000001].

Definition image (i n : string) : UploadedImage :=
  mkImage i (png n) "data:image/png;base64," n 1024 (Some 640%N) (Some 480%N).

(** The batch after one image was submitted to the empty batch: it is
    selected. *)
Definition one_selected : State :=
  submit 10 [png "a.png"] [loaded 0 1] initial.

(** The batch after two images were submitted to the empty batch: the
    first is selected. *)
Definition two_selected : State :=
  submit 10 two_files [loaded 0 1; loaded 1 1] initial.

(** Twelve image candidates for a batch that holds two. *)
Definition twelve : list File :=
  map (fun i => png (JS.N_toString (N.of_nat i) ++ ".png")) (seq 0 12).

Definition ten_loaded : list Loaded :=
  map (fun i => loaded i 1700000000000) (seq 0 10).

(** Analysis inputs. *)
Definition det (c : string) (x : JS.number) : Analysis.Detection :=
  Analysis.mkDetection c x [0; 0; 1; 1]%float.

Definition entry (n : string) (ds : list Analysis.Detection) : Analysis.ImageAnalysis :=
  Analysis.mkImageAnalysis n "PNG" 1%float "in" "out" "factory" [] ds.

Definition analysed (l : list Analysis.ImageAnalysis) : Analysis.AnalysisResult :=
  Analysis.mkAnalysisResult
    (Analysis.mkSummary (JS.of_nat (List.length l)) 1%float 1%float []) l.

(** Two images with detections: ten of confidence 1, one of confidence 0. *)
Definition ten_and_one : Analysis.AnalysisResult :=
  analysed [entry "a.png" (repeat (det "person" 1%float) 10);
            entry "b.png" [det "person" 0%float]].

(** Two images, the second without detections. *)
Definition one_without : Analysis.AnalysisResult :=
  analysed [entry "a.png" [det "person" 1%float]; entry "b.png" []].

(** One image with one detection, labelled in lower case. *)
Definition one_person : Analysis.AnalysisResult :=
  analysed [entry "a.png" [det "person" 0.9%float]].

(** Two images; "hard hat" and "person" are detected twice each, "hard
    hat" first, and "Person", with a capital, once. *)
Definition mixed : Analysis.AnalysisResult :=
  analysed [entry "a.png" [det "hard hat" 0.5%float; det "person" 0.9%float;
                           det "Person" 0.3%float];
            entry "b.png" [det "person" 0.8%float; det "hard hat" 0.7%float]].

End Ex.

(** ** Vocabulary of the further properties *)

Module Counts.
Import Upload Analysis.

(** No character of [s] is a dash. *)
Definition no_dash (s : string) : Prop :=
  forall c, In c (list_ascii_of_string s) -> c <> "-"%char.

(** The number of images of the batch whose format is [e]. *)
Definition format_count (images : list UploadedImage) (e : string) : nat :=
  List.length (filter (fun img => String.eqb (ext img) e) images).

(** The formats of a batch with their counts, each format at its first
    occurrence. *)
Definition formats_first_seen (images : list UploadedImage) : list (string * nat) :=
  Distribution.tabulate (format_count images)
                        (Distribution.first_seen (map ext images)).

(** The detections whose label is not the name of a member of
    [Object.prototype]. *)
Definition ownDetections (r : AnalysisResult) : list Detection :=
  filter (fun d => negb (JS.inherited (class_name d))) (Distribution.allDetections r).

End Counts.

Module Cases.
Import Upload.

(** Three image candidates; one decode has completed. *)
Definition three_files : list File := [Ex.png "a.png"; Ex.png "b.png"; Ex.png "c.png"].
Definition one_loaded : list Loaded := [Ex.loaded 2 1700000000000].
Definition first_loaded : list Loaded := [Ex.loaded 0 1700000000000].

(** One more image candidate, for a batch that holds two. *)
Definition one_file : list File := [Ex.png "c.png"].

(** A text file and an image, dropped together. *)
Definition text_and_image : list File := [Ex.txt "notes.txt"; Ex.png "c.png"].

(** An analysis with a label that names a member of [Object.prototype]. *)
Definition with_constructor : Analysis.AnalysisResult :=
  Ex.analysed [Ex.entry "a.png" [Ex.det "person" 0.9%float;
                                 Ex.det "constructor" 0.5%float]].

(** An analysis with two entries of the same name. *)
Definition twice_named : Analysis.AnalysisResult :=
  Ex.analysed [Ex.entry "a.png" [Ex.det "person" 0.9%float];
               Ex.entry "a.png" []].

End Cases.

(** ** Batch intake *)

Section RunDecodes.
Import Upload Spec.

Lemma completed_app ftp e1 e2 :
  completed ftp (e1 ++ e2) = completed ftp e1 ++ completed ftp e2.
Proof. unfold completed. now rewrite flat_map_app. Qed.

Lemma completed_length ftp events :
  Forall (fun ev => index ev < List.length ftp) events ->
  List.length (completed ftp events) = List.length events.
Proof.
  induction 1 as [|ev evs Hev _ IH]; simpl; [reflexivity|].
  apply nth_error_Some in Hev.
  destruct (nth_error ftp (index ev)); [simpl; now rewrite IH | contradiction].
Qed.

Lemma completed_files ftp events :
  Forall (fun ev => index ev < List.length ftp) events ->
  map Some (map file (completed ftp events))
  = map (fun ev => nth_error ftp (index ev)) events.
Proof.
  induction 1 as [|ev evs Hev _ IH]; simpl; [reflexivity|].
  apply nth_error_Some in Hev.
  destruct (nth_error ftp (index ev)) eqn:E; [|contradiction].
  simpl. now rewrite IH.
Qed.

Lemma nth_error_seq_all {A} (l : list A) :
  map (nth_error l) (seq 0 (List.length l)) = map Some l.
Proof.
  induction l as [|a l IH]; simpl; [reflexivity|].
  f_equal. rewrite <- seq_shift, map_map. exact IH.
Qed.

Lemma map_Some_inj {A} (l1 l2 : list A) : map Some l1 = map Some l2 -> l1 = l2.
Proof.
  revert l2; induction l1 as [|a l1 IH]; intros [|b l2] H; simpl in H;
    try discriminate; [reflexivity|].
  injection H as -> H. f_equal. now apply IH.
Qed.

Lemma all_complete_valid ftp events :
  all_complete ftp events ->
  Forall (fun ev => index ev < List.length ftp) events
  /\ List.length events = List.length ftp.
Proof.
  unfold all_complete. intros H. split.
  - apply Forall_forall. intros ev Hin.
    assert (Hi : In (index ev) (seq 0 (List.length ftp))).
    { eapply Permutation_in; [exact H|]. now apply in_map. }
    apply in_seq in Hi. lia.
  - apply Permutation_length in H. now rewrite length_map, length_seq in H.
Qed.

Lemma run_cons ev evs sp : run (ev :: evs) sp = run evs (img_onload ev sp).
Proof. reflexivity. Qed.

Lemma run_snoc evs ev sp : run (evs ++ [ev]) sp = img_onload ev (run evs sp).
Proof. unfold run. now rewrite fold_left_app. Qed.

Lemma img_onload_pending ev st p f :
  nth_error (filesToProcess p) (index ev) = Some f ->
  List.length (newImages p) + 1 <> List.length (filesToProcess p) ->
  exists pr,
    img_onload ev (st, p)
    = (setUploadProgress pr st,
       mkPending (capturedImages p) (capturedSelected p) (filesToProcess p)
                 (newImages p ++ [uploadedImage f ev])).
Proof.
  intros E Hne. unfold img_onload. rewrite E, length_app. simpl.
  destruct (Nat.eqb_spec (List.length (newImages p) + 1)
                         (List.length (filesToProcess p))) as [Heq|_]; [contradiction|].
  eexists. reflexivity.
Qed.

Lemma img_onload_commit ev st p f :
  nth_error (filesToProcess p) (index ev) = Some f ->
  List.length (newImages p) + 1 = List.length (filesToProcess p) ->
  let updated := capturedImages p ++ newImages p ++ [uploadedImage f ev] in
  fst (img_onload ev (st, p))
  = setUploadProgress zero (setUploading false
      (handleImagesChange (capturedSelected p) updated (setImages updated st))).
Proof.
  intros E Heq. unfold img_onload. rewrite E, length_app. simpl.
  rewrite Heq, Nat.eqb_refl. simpl.
  unfold handleImagesChange.
  destruct (capturedImages p ++ newImages p ++ _), (capturedSelected p), st; reflexivity.
Qed.

(** While fewer decodes have completed than were started, a completion
    only grows [newImages] and moves the progress bar. *)
Lemma run_pending events : forall st p,
  Forall (fun ev => index ev < List.length (filesToProcess p)) events ->
  List.length (newImages p) + List.length events < List.length (filesToProcess p) ->
  exists pr,
    run events (st, p)
    = (setUploadProgress pr st,
       mkPending (capturedImages p) (capturedSelected p) (filesToProcess p)
                 (newImages p ++ completed (filesToProcess p) events)).
Proof.
  induction events as [|ev evs IH]; intros st p Hv Hlen.
  - exists (uploadProgress st). simpl. rewrite app_nil_r.
    destruct st, p; reflexivity.
  - inversion Hv as [|? ? Hev Hevs]; subst. simpl in Hlen.
    pose proof Hev as Hsome. apply nth_error_Some in Hsome.
    destruct (nth_error (filesToProcess p) (index ev)) as [f|] eqn:E; [|contradiction].
    destruct (img_onload_pending ev st p f E) as [pr1 H1]; [lia|].
    rewrite run_cons, H1.
    edestruct IH as [pr Hrun]; [| |rewrite Hrun].
    + exact Hevs.
    + simpl. rewrite length_app; simpl. lia.
    + exists pr. simpl. rewrite E, <- app_assoc. reflexivity.
Qed.

(** The completion that makes [newImages] as long as [filesToProcess]
    publishes the captured batch followed by [newImages]. *)
Lemma run_commit events st p :
  Forall (fun ev => index ev < List.length (filesToProcess p)) events ->
  events <> [] ->
  List.length (newImages p) + List.length events = List.length (filesToProcess p) ->
  let updated := capturedImages p ++ newImages p ++ completed (filesToProcess p) events in
  fst (run events (st, p))
  = setUploadProgress zero (setUploading false
      (handleImagesChange (capturedSelected p) updated (setImages updated st))).
Proof.
  intros Hv Hne Hlen.
  destruct (exists_last Hne) as [evs [ev ->]].
  apply Forall_app in Hv as [Hevs Hev]. inversion Hev as [|? ? Hi _]; subst.
  rewrite length_app in Hlen; simpl in Hlen.
  destruct (run_pending evs st p Hevs) as [pr Hrun]; [lia|].
  rewrite run_snoc, Hrun.
  apply nth_error_Some in Hi.
  destruct (nth_error (filesToProcess p) (index ev)) as [f|] eqn:E; [|contradiction].
  rewrite (img_onload_commit ev _ _ f); simpl.
  - rewrite completed_app. simpl. rewrite E. simpl.
    rewrite <- !app_assoc.
    unfold handleImagesChange.
    destruct (capturedImages p ++ _), (capturedSelected p), st; reflexivity.
  - exact E.
  - rewrite length_app, completed_length by exact Hevs. lia.
Qed.

(** What a submission whose decodes all complete leaves. *)
Lemma submit_state maxImages files events st :
  all_complete (toProcess maxImages files st) events ->
  let ftp := toProcess maxImages files st in
  let updated := images st ++ completed ftp events in
  submit maxImages files events st
  = match ftp with
    | [] => st
    | _ => setUploadProgress zero (setUploading false
             (handleImagesChange (selectedImage st) updated (setImages updated st)))
    end.
Proof.
  intros Hall. apply all_complete_valid in Hall as [Hv Hlen].
  unfold submit, processFiles.
  destruct (toProcess maxImages files st) as [|f ftp] eqn:E; [reflexivity|].
  cbv zeta. rewrite run_commit; simpl.
  - unfold handleImagesChange.
    destruct (images st ++ _), (selectedImage st) eqn:Es, st; simpl in *;
      try rewrite Es; reflexivity.
  - exact Hv.
  - intros ->. discriminate.
  - exact Hlen.
Qed.

Lemma submit_images maxImages files events st :
  all_complete (toProcess maxImages files st) events ->
  images (submit maxImages files events st)
  = images st ++ completed (toProcess maxImages files st) events.
Proof.
  intros Hall. rewrite submit_state by exact Hall.
  destruct (toProcess maxImages files st) as [|f ftp] eqn:E.
  - apply all_complete_valid in Hall as [_ Hlen].
    destruct events; [|discriminate]. simpl. now rewrite app_nil_r.
  - unfold handleImagesChange.
    destruct (images st ++ _), (selectedImage st), st; reflexivity.
Qed.

End RunDecodes.

Section Intake.
Import Upload Spec.

Lemma admitted_submit maxImages files events st :
  all_complete (toProcess maxImages files st) events ->
  admitted st (submit maxImages files events st)
  = completed (toProcess maxImages files st) events.
Proof.
  intros Hall. unfold admitted. rewrite submit_images by exact Hall.
  rewrite skipn_app, Nat.sub_diag, skipn_all. reflexivity.
Qed.

Lemma submitOf_images env maxImages files events st :
  all_complete (toProcess maxImages files env) events ->
  toProcess maxImages files env <> [] ->
  images (Handlers.submitOf env maxImages files events st)
  = images env ++ completed (toProcess maxImages files env) events.
Proof.
  intros Hall Hne. apply all_complete_valid in Hall as [Hv Hlen].
  unfold Handlers.submitOf, Handlers.processFilesOf.
  destruct (toProcess maxImages files env) as [|f ftp] eqn:E; [contradiction|].
  rewrite run_commit; [ | exact Hv | intros ->; discriminate | exact Hlen ].
  cbn [capturedImages capturedSelected filesToProcess newImages app].
  unfold handleImagesChange.
  destruct (images env ++ _), (selectedImage env), st; reflexivity.
Qed.

Lemma newest_submitOf env maxImages files events st :
  all_complete (toProcess maxImages files env) events ->
  newest (List.length (toProcess maxImages files env))
         (Handlers.submitOf env maxImages files events st)
  = completed (toProcess maxImages files env) events.
Proof.
  intros Hall. pose proof (all_complete_valid _ _ Hall) as [Hv Hlen].
  unfold newest.
  destruct (toProcess maxImages files env) as [|f ftp] eqn:E.
  - destruct events; [|discriminate]. simpl List.length.
    rewrite Nat.sub_0_r. apply skipn_all.
  - rewrite <- E in *. rewrite submitOf_images by (try exact Hall; rewrite E; discriminate).
    rewrite length_app, completed_length, Hlen by exact Hv.
    replace (List.length (images env) + List.length (toProcess maxImages files env)
             - List.length (toProcess maxImages files env))
      with (List.length (images env)) by lia.
    rewrite skipn_app, Nat.sub_diag, skipn_all. reflexivity.
Qed.

(** C1, as the code has it.  For a submission through the closure of any
    render [env] (a drop and a choice of files run the first render's,
    [env = initial], whatever the state [st] at the time), whose started
    decodes all complete: the newly admitted descriptors, which are the
    last of the published batch, are in the order in which their decodes
    completed.  The k-th is that of the candidate whose decode completed
    k-th; they are those of the accepted candidates in some order, and in
    the candidates' own order when the decodes complete in that order. *)
Theorem admitted_in_completion_order env maxImages files events st :
  all_complete (toProcess maxImages files env) events ->
  let ftp := toProcess maxImages files env in
  let new := newest (List.length ftp) (Handlers.submitOf env maxImages files events st) in
  new = completed ftp events
  /\ map Some (map file new) = map (fun ev => nth_error ftp (index ev)) events
  /\ Permutation (map file new) ftp
  /\ (map index events = seq 0 (List.length ftp) -> map file new = ftp).
Proof.
  intros Hall ftp new. subst ftp new.
  pose proof (all_complete_valid _ _ Hall) as [Hv Hlen].
  rewrite newest_submitOf by exact Hall.
  pose proof (completed_files _ _ Hv) as Hfiles.
  repeat split.
  - exact Hfiles.
  - assert (Hp : Permutation
                   (map Some (map file (completed (toProcess maxImages files env) events)))
                   (map Some (toProcess maxImages files env))).
    { rewrite Hfiles, <- nth_error_seq_all, <- (map_map index).
      apply Permutation_map. exact Hall. }
    apply Permutation_sym, Permutation_map_inv in Hp as [l [Heq Hp]].
    apply map_Some_inj in Heq. subst l. now apply Permutation_sym.
  - intros Hord. apply map_Some_inj.
    rewrite Hfiles, <- nth_error_seq_all, <- Hord, map_map. reflexivity.
Qed.

Lemma admitted_in_completion_order_witness :
  all_complete (toProcess 10 Ex.two_files initial) Ex.second_first
  /\ newest (List.length (toProcess 10 Ex.two_files initial))
            (Handlers.submitOf initial 10 Ex.two_files Ex.second_first Ex.one_selected)
     = completed (toProcess 10 Ex.two_files initial) Ex.second_first
  /\ map Some (map file
        (newest (List.length (toProcess 10 Ex.two_files initial))
                (Handlers.submitOf initial 10 Ex.two_files Ex.second_first Ex.one_selected)))
     = map (fun ev => nth_error (toProcess 10 Ex.two_files initial) (index ev))
           Ex.second_first
  /\ Permutation
       (map file
          (newest (List.length (toProcess 10 Ex.two_files initial))
                  (Handlers.submitOf initial 10 Ex.two_files Ex.second_first
                                     Ex.one_selected)))
       (toProcess 10 Ex.two_files initial)
  /\ (map index Ex.second_first
      = seq 0 (List.length (toProcess 10 Ex.two_files initial)) ->
      map file
        (newest (List.length (toProcess 10 Ex.two_files initial))
                (Handlers.submitOf initial 10 Ex.two_files Ex.second_first Ex.one_selected))
      = toProcess 10 Ex.two_files initial).
Proof.
  assert (H : all_complete (toProcess 10 Ex.two_files initial) Ex.second_first)
    by (vm_compute; apply perm_swap).
  split; [exact H|].
  exact (admitted_in_completion_order initial 10 Ex.two_files Ex.second_first
           Ex.one_selected H).
Defined.

(** C1, as stated, fails: of two accepted candidates whose decodes
    complete second-first, the second is appended first. *)
Lemma submission_order_counterexample :
  all_complete (toProcess 10 Ex.two_files initial) Ex.second_first
  /\ map file_name (toProcess 10 Ex.two_files initial) = ["a.png"; "b.png"]%string
  /\ map name (images (submit 10 Ex.two_files Ex.second_first initial))
     = ["b.png"; "a.png"]%string
  /\ ~ in_submission_order 10 Ex.two_files Ex.second_first initial.
Proof.
  split; [vm_compute; apply perm_swap|].
  split; [reflexivity|]. split; [reflexivity|].
  unfold in_submission_order. vm_compute. intros H. discriminate H.
Qed.

Lemma slice0_firstn {A} (e : Z) (a : list A) :
  (0 <= e)%Z -> JS.slice0 e a = firstn (Z.to_nat e) a.
Proof.
  intros He. unfold JS.slice0.
  destruct (Z.ltb_spec e 0) as [Hneg|_]; [lia|].
  destruct (Z.min_spec e (Z.of_nat (List.length a))) as [[Hlt ->]|[Hge ->]].
  - reflexivity.
  - rewrite Nat2Z.id, firstn_all.
    symmetry. apply firstn_all2. lia.
Qed.

(** C2, at a drop of one image on a batch of two, with [maxImages] 10: the
    handler runs the first render's [processFiles], whose [images] is
    empty, so the batch published is the new image alone, of length 1,
    where the claim has 2 + min(1, 10 - 2) = 3.  In the spec's scenario,
    twelve candidates for a batch of two, ten decodes are started, not
    eight, and the batch published is those ten without the two it held.
    The candidate that is no image is left out, the batch stays within
    [maxImages], and nothing is raised. *)
Lemma drop_on_batch_of_two :
  map name (images Ex.two_selected) = ["a.png"; "b.png"]%string
  /\ List.length (imageFiles Cases.one_file) = 1
  /\ map name (images (Handlers.dropped 10 Cases.one_file Cases.first_loaded
                                        Ex.two_selected))
     = ["c.png"]%string
  /\ Z.of_nat (List.length (images (Handlers.dropped 10 Cases.one_file Cases.first_loaded
                                                     Ex.two_selected)))
     = 1%Z
  /\ (Z.of_nat (List.length (images Ex.two_selected))
      + Z.min (Z.of_nat (List.length (imageFiles Cases.one_file)))
              (10 - Z.of_nat (List.length (images Ex.two_selected))))%Z
     = 3%Z
  /\ List.length (imageFiles Ex.twelve) = 12
  /\ option_map (fun p => List.length (filesToProcess p))
                (snd (snd (Handlers.handleDrop 10 Ex.twelve (true, Ex.two_selected))))
     = Some 10
  /\ map name (images (Handlers.dropped 10 Ex.twelve Ex.ten_loaded Ex.two_selected))
     = ["0.png"; "1.png"; "2.png"; "3.png"; "4.png";
        "5.png"; "6.png"; "7.png"; "8.png"; "9.png"]%string
  /\ map file_name (imageFiles Cases.text_and_image) = ["c.png"]%string
  /\ map name (images (Handlers.dropped 10 Cases.text_and_image Cases.first_loaded
                                        Ex.two_selected))
     = ["c.png"]%string.
Proof. repeat split; vm_compute; reflexivity. Qed.

End Intake.

(** ** Selection *)

Section Selection.
Import Upload Spec.

(** C3, at the batch that holds one selected image: "Clear Batch" empties
    both copies of the batch and leaves [selectedImage] as it was, so the
    selection no longer names an image of the batch. *)
Lemma clearBatch_keeps_selection :
  selection_ok Ex.one_selected = true
  /\ map id (pageImages Ex.one_selected) = ["1-0"]%string
  /\ option_map id (selectedImage Ex.one_selected) = Some "1-0"%string
  /\ images (clearBatch Ex.one_selected) = []
  /\ pageImages (clearBatch Ex.one_selected) = []
  /\ selectedImage (clearBatch Ex.one_selected) = selectedImage Ex.one_selected
  /\ selection_ok (clearBatch Ex.one_selected) = false.
Proof. repeat split. Qed.

(** C4, as the code has it: selecting never fails and checks nothing.
    [handleImageSelect] stores the image it is given, whether or not the
    batch holds an image of that id, and changes nothing else. *)
Theorem handleImageSelect_unconditional (image : UploadedImage) (st : State) :
  selectImage image st = handleImageSelect (Some image) st
  /\ selectedImage (selectImage image st) = Some image
  /\ pageImages (selectImage image st) = pageImages st
  /\ images (selectImage image st) = images st
  /\ uploading (selectImage image st) = uploading st
  /\ uploadProgress (selectImage image st) = uploadProgress st.
Proof. repeat split. Qed.

(** C4, as stated, fails: on the empty batch, selecting an image (whose id
    matches no descriptor) changes the state: the image becomes the
    selection. *)
Lemma select_unknown_counterexample :
  existsb (fun img => String.eqb (id img) (id (Ex.image "9-9" "z.png")))
          (pageImages initial) = false
  /\ selectedImage (selectImage (Ex.image "9-9" "z.png") initial)
     = Some (Ex.image "9-9" "z.png")
  /\ selectImage (Ex.image "9-9" "z.png") initial <> initial.
Proof.
  split; [reflexivity|]. split; [reflexivity|].
  intros H. apply (f_equal selectedImage) in H. discriminate H.
Qed.

Lemma filter_out_one (rid : string) l1 (d : UploadedImage) l2 :
  id d = rid ->
  NoDup (map id (l1 ++ d :: l2)) ->
  filter (fun img => negb (String.eqb (id img) rid)) (l1 ++ d :: l2) = l1 ++ l2.
Proof.
  intros Hd Hnd.
  assert (Hkeep : forall l, (forall x, In x l -> id x <> rid) ->
            filter (fun img => negb (String.eqb (id img) rid)) l = l).
  { induction l as [|x l IH]; intros Hl; simpl; [reflexivity|].
    destruct (String.eqb_spec (id x) rid) as [Heq|_].
    - exfalso. apply (Hl x); [now left | exact Heq].
    - simpl. f_equal. apply IH. intros y Hy. apply Hl. now right. }
  rewrite map_app in Hnd. simpl in Hnd.
  pose proof (NoDup_remove_2 _ _ _ Hnd) as Hnot.
  rewrite filter_app. simpl. rewrite Hd, String.eqb_refl. simpl.
  rewrite Hd in Hnot.
  rewrite !Hkeep; [reflexivity| |].
  - intros x Hx Heq. apply Hnot, in_or_app. right.
    rewrite <- Heq. now apply in_map.
  - intros x Hx Heq. apply Hnot, in_or_app. left.
    rewrite <- Heq. now apply in_map.
Qed.

(** C10: removing an image of the batch that is not the selected one
    leaves the selection as it was; the batch loses that image and nothing
    else, in both copies, and the upload indicators are untouched. *)
Theorem removeImage_keeps_selection rid s st :
  selectedImage st = Some s ->
  id s <> rid ->
  In rid (map id (images st)) ->
  NoDup (map id (images st)) ->
  selectedImage (removeImage rid st) = Some s
  /\ (exists l1 d l2,
        images st = l1 ++ d :: l2 /\ id d = rid
        /\ images (removeImage rid st) = l1 ++ l2)
  /\ pageImages (removeImage rid st) = images (removeImage rid st)
  /\ uploading (removeImage rid st) = uploading st
  /\ uploadProgress (removeImage rid st) = uploadProgress st.
Proof.
  intros Hsel Hneq Hin Hnd.
  assert (Hst : removeImage rid st
                = setPageImages
                    (filter (fun img => negb (String.eqb (id img) rid)) (images st))
                    (setImages
                       (filter (fun img => negb (String.eqb (id img) rid)) (images st))
                       st)).
  { unfold removeImage, handleImagesChange. rewrite Hsel.
    destruct (String.eqb_spec (id s) rid) as [Heq|_]; [contradiction|].
    destruct (filter _ (images st)); reflexivity. }
  rewrite Hst. simpl. repeat split; try assumption.
  apply in_map_iff in Hin as [d [Hd Hin]].
  apply in_split in Hin as [l1 [l2 Himgs]].
  exists l1, d, l2. repeat split; try assumption.
  rewrite Himgs in *. now apply filter_out_one.
Qed.

Lemma removeImage_keeps_selection_witness :
  selectedImage Ex.two_selected = Some (Ex.image "1-0" "a.png")
  /\ id (Ex.image "1-0" "a.png") <> "1-1"%string
  /\ In "1-1"%string (map id (images Ex.two_selected))
  /\ NoDup (map id (images Ex.two_selected))
  /\ selectedImage (removeImage "1-1" Ex.two_selected) = Some (Ex.image "1-0" "a.png")
  /\ (exists l1 d l2,
        images Ex.two_selected = l1 ++ d :: l2 /\ id d = "1-1"%string
        /\ images (removeImage "1-1" Ex.two_selected) = l1 ++ l2)
  /\ pageImages (removeImage "1-1" Ex.two_selected)
     = images (removeImage "1-1" Ex.two_selected)
  /\ uploading (removeImage "1-1" Ex.two_selected) = uploading Ex.two_selected
  /\ uploadProgress (removeImage "1-1" Ex.two_selected)
     = uploadProgress Ex.two_selected.
Proof.
  assert (H1 : selectedImage Ex.two_selected = Some (Ex.image "1-0" "a.png"))
    by reflexivity.
  assert (H2 : id (Ex.image "1-0" "a.png") <> "1-1"%string)
    by (simpl; discriminate).
  assert (H3 : In "1-1"%string (map id (images Ex.two_selected)))
    by (vm_compute; right; left; reflexivity).
  assert (H4 : NoDup (map id (images Ex.two_selected))).
  { vm_compute. repeat constructor; simpl; intuition discriminate. }
  split; [exact H1|]. split; [exact H2|]. split; [exact H3|]. split; [exact H4|].
  exact (removeImage_keeps_selection "1-1" (Ex.image "1-0" "a.png")
           Ex.two_selected H1 H2 H3 H4).
Defined.

End Selection.

(** ** Aggregation *)

Section Aggregation.
Import Upload Analysis.
Local Open Scope string_scope.

(** C9: without an analysis result the panel's values are the fixed
    placeholder text, no labels, zeros and an empty detection list,
    whatever the batch and the selection; the format distribution is
    still that of the batch. *)
Theorem aggregate_without_analysis (images : list UploadedImage)
    (selectedImage : option UploadedImage) :
  let vm := aggregate images selectedImage None in
  description (summaryView (analysis vm))
  = [Lit "Upload and analyze images to see results here."]
  /\ summaryLabels (summaryView (analysis vm)) = []
  /\ confidence (summaryView (analysis vm)) = 0%float
  /\ detectionCount (dashboard (analysis vm)) = 0
  /\ averageConfidence (dashboard (analysis vm)) = 0%float
  /\ processingTime (dashboard (analysis vm)) = "0s"
  /\ detection vm = []
  /\ formatData vm = formatAnalysis images.
Proof. repeat split. Qed.

(** C5, at a name without a dot: the whole name, upper-cased, is the
    format; ["UNKNOWN"] is what a name that ends in a dot, or the empty
    name, gets.  The spec's own scenario is computed as it says. *)
Lemma formatAnalysis_no_extension :
  ext (Ex.image "1-0" "README") = "README"
  /\ formatAnalysis [Ex.image "1-0" "README"] = [("README", 1)]
  /\ formatAnalysis [Ex.image "1-0" "archive."; Ex.image "1-1" ""]
     = [("UNKNOWN", 2)]
  /\ formatAnalysis [Ex.image "1-0" "a.jpg"; Ex.image "1-1" "b.PNG";
                     Ex.image "1-2" "c.jpg"]
     = [("JPG", 2); ("PNG", 1)].
Proof. repeat split. Qed.

(** C6, at a matching entry without detections: the mean is [0 / 0], and
    the figure is NaN, not 0.  The spec's scenario with confidences 0.8
    and 0.6 gives 70. *)
Lemma confidence_without_detections :
  confidence (summaryView
    (analysisData (Some (Ex.image "1-0" "x.jpg"))
                  (Some (Ex.analysed [Ex.entry "x.jpg" []])))) = nan
  /\ confidence (summaryView
       (analysisData (Some (Ex.image "1-0" "x.jpg"))
                     (Some (Ex.analysed
                        [Ex.entry "x.jpg" [Ex.det "person" 0.8%float; Ex.det "person" 0.6%float]]))))
     = 70%float.
Proof. split; vm_compute; reflexivity. Qed.

(** C7, at an analysis with an entry that has no detections, and at one
    with no entry at all: the figure is NaN, where the two-level average of
    the claim is 100 and 0.  The spec's scenario (ten detections of
    confidence 1, one of confidence 0) gives 50 in both. *)
Lemma averageConfidence_without_detections :
  averageConfidence (dashboard (analysisData None (Some Ex.one_without))) = nan
  /\ Distribution.two_level_average Ex.one_without = 100%float
  /\ averageConfidence (dashboard (analysisData None (Some (Ex.analysed [])))) = nan
  /\ Distribution.two_level_average (Ex.analysed []) = 0%float
  /\ averageConfidence (dashboard (analysisData None (Some Ex.ten_and_one)))
     = 50%float
  /\ Distribution.two_level_average Ex.ten_and_one = 50%float.
Proof. repeat split; vm_compute; reflexivity. Qed.

End Aggregation.

(** ** The stable sort and the dictionary *)

Section SortFacts.
Context {A : Type} (key : A -> nat).

Lemma insert_desc_perm x l : Permutation (JS.insert_desc key x l) (x :: l).
Proof.
  induction l as [|y r IH]; simpl; [apply Permutation_refl|].
  destruct (key y <=? key x); [apply Permutation_refl|].
  eapply Permutation_trans; [apply perm_skip, IH | apply perm_swap].
Qed.

Lemma sort_desc_perm l : Permutation (JS.sort_desc key l) l.
Proof.
  induction l as [|x l IH]; simpl; [constructor|].
  eapply Permutation_trans; [apply insert_desc_perm | now apply perm_skip].
Qed.

Lemma insert_desc_sorted x l :
  Sorted (Distribution.descending key) l -> Sorted (Distribution.descending key) (JS.insert_desc key x l).
Proof.
  induction 1 as [|y r Hs IH Hhd]; simpl.
  - repeat constructor.
  - destruct (Nat.leb_spec (key y) (key x)) as [Hle|Hgt].
    + constructor; [now constructor | constructor; exact Hle].
    + constructor; [exact IH|].
      destruct r as [|z r]; simpl.
      * constructor. unfold Distribution.descending. lia.
      * destruct (key z <=? key x); constructor.
        -- unfold Distribution.descending. lia.
        -- now inversion Hhd.
Qed.

Lemma sort_desc_sorted l : StronglySorted (Distribution.descending key) (JS.sort_desc key l).
Proof.
  apply Sorted_StronglySorted.
  - intros a b c Hab Hbc. unfold Distribution.descending in *. lia.
  - induction l as [|x l IH]; simpl; [constructor|].
    now apply insert_desc_sorted.
Qed.

(** Stability: among the elements of one key, the sort changes nothing. *)
Lemma insert_desc_stable c x l :
  filter (fun a => key a =? c) (JS.insert_desc key x l)
  = filter (fun a => key a =? c) (x :: l).
Proof.
  induction l as [|y r IH]; [reflexivity|].
  simpl JS.insert_desc.
  destruct (Nat.leb_spec (key y) (key x)) as [Hle|Hgt]; [reflexivity|].
  cbn [filter] in *. rewrite IH.
  destruct (Nat.eqb_spec (key y) c), (Nat.eqb_spec (key x) c);
    try reflexivity. lia.
Qed.

Lemma sort_desc_stable c l :
  filter (fun a => key a =? c) (JS.sort_desc key l)
  = filter (fun a => key a =? c) l.
Proof.
  induction l as [|x l IH]; [reflexivity|].
  simpl JS.sort_desc. rewrite insert_desc_stable. simpl. now rewrite IH.
Qed.

End SortFacts.

Section ObjFacts.
Context {V : Type}.

Lemma filter_all {B} (f : B -> bool) l :
  (forall x, In x l -> f x = true) -> filter f l = l.
Proof.
  induction l as [|x l IH]; intros H; simpl; [reflexivity|].
  rewrite (H x) by now left. f_equal. apply IH. intros y Hy. apply H. now right.
Qed.

Lemma filter_none {B} (f : B -> bool) l :
  (forall x, In x l -> f x = false) -> filter f l = [].
Proof.
  induction l as [|x l IH]; intros H; simpl; [reflexivity|].
  rewrite (H x) by now left. apply IH. intros y Hy. apply H. now right.
Qed.

(** Without array-index keys, [Object.entries] lists the properties in
    creation order. *)
Lemma entries_creation_order (o : JS.obj V) :
  (forall p, In p o -> JS.isArrayIndex (fst p) = false) -> JS.entries o = o.
Proof.
  intros H. unfold JS.entries.
  rewrite filter_none by exact H. simpl.
  apply filter_all. intros p Hp. now rewrite (H p Hp).
Qed.

Lemma insert_index_perm (p : string * V) l :
  Permutation (JS.insert_index p l) (p :: l).
Proof.
  induction l as [|q r IH]; simpl; [apply Permutation_refl|].
  destruct (JS.index_of p <=? JS.index_of q)%N; [apply Permutation_refl|].
  eapply Permutation_trans; [apply perm_skip, IH | apply perm_swap].
Qed.

Lemma filter_partition_perm {B} (f : B -> bool) l :
  Permutation (filter f l ++ filter (fun x => negb (f x)) l) l.
Proof.
  induction l as [|x l IH]; simpl; [constructor|].
  destruct (f x); simpl.
  - now apply perm_skip.
  - apply Permutation_sym, Permutation_cons_app, Permutation_sym, IH.
Qed.

(** [Object.entries] lists every own property once. *)
Lemma entries_perm (o : JS.obj V) : Permutation (JS.entries o) o.
Proof.
  unfold JS.entries.
  eapply Permutation_trans; [|apply (filter_partition_perm (fun p => JS.isArrayIndex (fst p)))].
  apply Permutation_app_tail.
  induction (filter _ o) as [|p l IH]; simpl; [constructor|].
  eapply Permutation_trans; [apply insert_index_perm | now apply perm_skip].
Qed.

Lemma get_tabulate (F : string -> V) k ks :
  JS.get k (Distribution.tabulate F ks) = if existsb (String.eqb k) ks then Some (F k) else None.
Proof.
  induction ks as [|k' ks IH]; simpl; [reflexivity|].
  rewrite (String.eqb_sym k k').
  destruct (String.eqb_spec k' k) as [->|_]; [reflexivity | exact IH].
Qed.

Lemma set_tabulate_new (F : string -> V) k v ks :
  existsb (String.eqb k) ks = false ->
  JS.set k v (Distribution.tabulate F ks) = Distribution.tabulate F ks ++ [(k, v)].
Proof.
  induction ks as [|k' ks IH]; simpl; [reflexivity|].
  rewrite (String.eqb_sym k k'). intros H.
  apply orb_false_iff in H as [H1 H2]. rewrite H1. simpl. f_equal. now apply IH.
Qed.

Lemma set_tabulate_old (F G : string -> V) k v ks :
  NoDup ks -> In k ks -> G k = v ->
  (forall k', k' <> k -> G k' = F k') ->
  JS.set k v (Distribution.tabulate F ks) = Distribution.tabulate G ks.
Proof.
  intros Hnd Hin Hv Hother.
  induction ks as [|k' ks IH]; [contradiction|].
  inversion Hnd as [|? ? Hnot Hnd']; subst. simpl.
  destruct (String.eqb_spec k' k) as [->|Hne].
  - f_equal. unfold Distribution.tabulate. apply map_ext_in.
    intros a Ha. f_equal. symmetry. apply Hother. intros ->. contradiction.
  - rewrite (Hother k' Hne). f_equal. apply IH; [exact Hnd'|].
    destruct Hin as [->|Hin]; [contradiction | exact Hin].
Qed.

End ObjFacts.

(** ** The detection distribution *)

Section DetectionDistribution.
Import Analysis Distribution.

Lemma in_first_seen x l : In x (first_seen l) <-> In x l.
Proof.
  induction l as [|a l IH]; simpl; [tauto|].
  rewrite filter_In, IH.
  destruct (String.eqb_spec x a) as [->|Hne]; simpl; intuition congruence.
Qed.

Lemma NoDup_first_seen l : NoDup (first_seen l).
Proof.
  induction l as [|a l IH]; simpl; constructor.
  - rewrite filter_In, String.eqb_refl. simpl. intros [_ H]. discriminate.
  - now apply NoDup_filter.
Qed.

Lemma first_seen_snoc l x :
  first_seen (l ++ [x])
  = if existsb (String.eqb x) l then first_seen l else first_seen l ++ [x].
Proof.
  induction l as [|a l IH]; simpl; [reflexivity|].
  rewrite IH.
  destruct (String.eqb_spec x a) as [->|Hne]; simpl.
  - destruct (existsb (String.eqb a) l); [reflexivity|].
    rewrite filter_app. simpl. rewrite String.eqb_refl. simpl.
    now rewrite app_nil_r.
  - destruct (existsb (String.eqb x) l); [reflexivity|].
    rewrite filter_app. simpl.
    destruct (String.eqb_spec x a) as [Heq|_]; [contradiction|]. reflexivity.
Qed.

Lemma existsb_eqb_In x (l : list string) :
  existsb (String.eqb x) l = true <-> In x l.
Proof.
  rewrite existsb_exists. split.
  - intros [y [Hy Heq]]. apply String.eqb_eq in Heq. now subst.
  - intros H. exists x. split; [exact H | apply String.eqb_refl].
Qed.

Lemma group_of_snoc l ds d :
  group_of l (ds ++ [d])
  = if String.eqb (class_name d) l then group_of l ds ++ [d] else group_of l ds.
Proof.
  unfold group_of. rewrite filter_app. simpl.
  destruct (String.eqb (class_name d) l); [reflexivity | apply app_nil_r].
Qed.

Lemma group_of_absent l ds :
  existsb (String.eqb l) (map class_name ds) = false -> group_of l ds = [].
Proof.
  intros H. unfold group_of. apply filter_none. intros d Hd.
  destruct (String.eqb_spec (class_name d) l) as [Heq|_]; [|reflexivity].
  assert (Hin : In l (map class_name ds)) by (rewrite <- Heq; now apply in_map).
  apply existsb_eqb_In in Hin. congruence.
Qed.

Lemma sumConf_snoc ds d : sumConf (ds ++ [d]) = (sumConf ds + conf d)%float.
Proof. unfold sumConf. now rewrite fold_left_app. Qed.

(** One more detection: its label's entry is created or updated. *)
Lemma countDetection_tabulate ds d :
  JS.inherited (class_name d) = false ->
  countDetection (tabulate (group_data ds) (first_seen (map class_name ds))) d
  = tabulate (group_data (ds ++ [d])) (first_seen (map class_name (ds ++ [d]))).
Proof.
  intros Hplain. unfold countDetection. rewrite Hplain.
  rewrite get_tabulate, map_app.
  change (map class_name [d]) with [class_name d]. rewrite first_seen_snoc.
  assert (Hother : forall k, k <> class_name d ->
                             group_data (ds ++ [d]) k = group_data ds k).
  { intros k Hk. unfold group_data. rewrite group_of_snoc.
    destruct (String.eqb_spec (class_name d) k) as [Heq|_]; [|reflexivity].
    now symmetry in Heq. }
  assert (Hself : group_data (ds ++ [d]) (class_name d)
                  = mkGroup (count (group_data ds (class_name d)) + 1)
                            (totalConf (group_data ds (class_name d)) + conf d)%float).
  { unfold group_data. rewrite group_of_snoc, String.eqb_refl. simpl.
    now rewrite length_app, sumConf_snoc. }
  destruct (existsb (String.eqb (class_name d)) (first_seen (map class_name ds))) eqn:Efs.
  - assert (Hin : In (class_name d) (map class_name ds)).
    { apply in_first_seen. now apply existsb_eqb_In. }
    pose proof Hin as Hex. apply existsb_eqb_In in Hex. rewrite Hex.
    apply set_tabulate_old.
    + apply NoDup_first_seen.
    + now apply in_first_seen.
    + exact Hself.
    + exact Hother.
  - assert (Hex : existsb (String.eqb (class_name d)) (map class_name ds) = false).
    { destruct (existsb _ (map class_name ds)) eqn:E; [|reflexivity].
      apply existsb_eqb_In, in_first_seen, existsb_eqb_In in E. congruence. }
    rewrite Hex, set_tabulate_new by exact Efs.
    unfold tabulate. rewrite map_app. simpl. f_equal.
    + apply map_ext_in. intros k Hk. f_equal. symmetry. apply Hother.
      intros ->. apply existsb_eqb_In in Hk. congruence.
    + rewrite Hself. unfold group_data.
      now rewrite (group_of_absent _ _ Hex).
Qed.

Lemma fold_countDetection ds :
  Forall (fun d => plain (class_name d)) ds ->
  fold_left countDetection ds []
  = tabulate (group_data ds) (first_seen (map class_name ds)).
Proof.
  induction ds as [|d ds IH] using rev_ind; intros H; [reflexivity|].
  apply Forall_app in H as [Hds Hd]. inversion Hd as [|? ? [Hinh _] _]; subst.
  rewrite fold_left_app. simpl. rewrite IH by exact Hds.
  now apply countDetection_tabulate.
Qed.

Lemma groupDetections_flat r :
  groupDetections r = fold_left countDetection (allDetections r) [].
Proof.
  unfold groupDetections, allDetections.
  generalize (@nil (string * Group)).
  induction (images r) as [|img imgs IH]; intros acc; simpl; [reflexivity|].
  now rewrite fold_left_app, IH.
Qed.

Lemma toRow_tabulate ds ls :
  map toRow (tabulate (group_data ds) ls) = map (label_row ds) ls.
Proof. unfold tabulate. rewrite map_map. reflexivity. Qed.

(** The rows before the sort. *)
Lemma rows_by_label r :
  Forall (fun d => plain (class_name d)) (allDetections r) ->
  map toRow (JS.entries (groupDetections r)) = by_label (allDetections r).
Proof.
  intros H. rewrite groupDetections_flat, fold_countDetection by exact H.
  rewrite entries_creation_order; [apply toRow_tabulate|].
  intros p Hp. unfold tabulate in Hp.
  apply in_map_iff in Hp as [l [<- Hl]]. simpl.
  apply in_first_seen, in_map_iff in Hl as [d [<- Hd]].
  rewrite Forall_forall in H. now destruct (H d Hd).
Qed.

(** C8, as the code has it.  For labels that are neither array indices
    nor names of members of [Object.prototype]: the detections of all
    images are grouped by [class_name], compared exactly; each group gives
    one row, which shows the label with its first character in upper case
    and the rest as given, the group's size, and the mean of its
    confidences as a rounded percentage; the rows are sorted by
    descending count, rows of equal count in first-seen order of their
    labels. *)
Theorem detectionData_by_label (r : AnalysisResult) :
  Forall (fun d => plain (class_name d)) (allDetections r) ->
  let rows := detectionData (Some r) in
  let ds := allDetections r in
  rows = JS.sort_desc rowCount (by_label ds)
  /\ Permutation rows (by_label ds)
  /\ StronglySorted (descending rowCount) rows
  /\ (forall c, filter (fun row => rowCount row =? c) rows
                = filter (fun row => rowCount row =? c) (by_label ds)).
Proof.
  intros H rows ds. subst rows ds. unfold detectionData.
  rewrite rows_by_label by exact H.
  split; [reflexivity|]. split; [apply sort_desc_perm|].
  split; [apply sort_desc_sorted|]. intros c. apply sort_desc_stable.
Qed.

Lemma detectionData_by_label_witness :
  Forall (fun d => plain (class_name d)) (allDetections Ex.mixed)
  /\ detectionData (Some Ex.mixed)
     = JS.sort_desc rowCount (by_label (allDetections Ex.mixed))
  /\ Permutation (detectionData (Some Ex.mixed)) (by_label (allDetections Ex.mixed))
  /\ StronglySorted (descending rowCount) (detectionData (Some Ex.mixed))
  /\ (forall c, filter (fun row => rowCount row =? c) (detectionData (Some Ex.mixed))
                = filter (fun row => rowCount row =? c)
                         (by_label (allDetections Ex.mixed))).
Proof.
  assert (H : Forall (fun d => plain (class_name d)) (allDetections Ex.mixed)).
  { repeat constructor. }
  split; [exact H|]. exact (detectionData_by_label Ex.mixed H).
Defined.

(** C8, as stated, fails: the one detection is labelled "person", and its
    row shows "Person". *)
Lemma label_case_counterexample :
  map class_name (allDetections Ex.one_person) = ["person"]%string
  /\ detectionData (Some Ex.one_person) = [mkRow "Person" 1 90%float]
  /\ ~ case_preserved Ex.one_person.
Proof.
  split; [reflexivity|]. split; [vm_compute; reflexivity|].
  intros H. specialize (H (mkRow "Person" 1 90%float)).
  assert (Hin : In (mkRow "Person" 1 90%float) (detectionData (Some Ex.one_person))).
  { vm_compute. left. reflexivity. }
  apply H in Hin. simpl in Hin. destruct Hin as [Heq|[]]. discriminate Heq.
Qed.

End DetectionDistribution.

(** ** Further properties of the code *)

Section Consistency.
Import Upload Spec.

Lemma selection_ok_member (s : UploadedImage) (st : State) :
  selectedImage st = Some s -> In s (pageImages st) -> selection_ok st = true.
Proof.
  intros Hsel Hin. unfold selection_ok. rewrite Hsel.
  apply existsb_exists. exists s. split; [exact Hin | apply String.eqb_refl].
Qed.

Lemma selection_ok_id (s img : UploadedImage) (st : State) :
  selectedImage st = Some s -> In img (pageImages st) -> id img = id s ->
  selection_ok st = true.
Proof.
  intros Hsel Hin Hid. unfold selection_ok. rewrite Hsel.
  apply existsb_exists. exists img. split; [exact Hin | now apply String.eqb_eq].
Qed.

Lemma selection_ok_inv (s : UploadedImage) (st : State) :
  selectedImage st = Some s -> selection_ok st = true ->
  exists img, In img (pageImages st) /\ id img = id s.
Proof.
  unfold selection_ok. intros -> H.
  apply existsb_exists in H as [img [Hin Hid]].
  exists img. split; [exact Hin | now apply String.eqb_eq].
Qed.

(** Removing the selected image selects the first image that is left, or
    nothing when none is left. *)
Theorem removeImage_selected rid s st :
  selectedImage st = Some s ->
  id s = rid ->
  selectedImage (removeImage rid st)
  = hd_error (filter (fun img => negb (String.eqb (id img) rid)) (images st))
  /\ images (removeImage rid st)
     = filter (fun img => negb (String.eqb (id img) rid)) (images st)
  /\ pageImages (removeImage rid st) = images (removeImage rid st).
Proof.
  intros Hsel <-. unfold removeImage, handleImagesChange.
  rewrite Hsel, String.eqb_refl.
  destruct (filter _ (images st)); repeat split.
Qed.

Lemma removeImage_selected_witness :
  selectedImage Ex.one_selected = Some (Ex.image "1-0" "a.png")
  /\ id (Ex.image "1-0" "a.png") = "1-0"%string
  /\ selectedImage (removeImage "1-0" Ex.one_selected)
     = hd_error (filter (fun img => negb (String.eqb (id img) "1-0"))
                        (images Ex.one_selected))
  /\ images (removeImage "1-0" Ex.one_selected)
     = filter (fun img => negb (String.eqb (id img) "1-0")) (images Ex.one_selected)
  /\ pageImages (removeImage "1-0" Ex.one_selected)
     = images (removeImage "1-0" Ex.one_selected).
Proof.
  split; [reflexivity|]. split; [reflexivity|].
  apply (removeImage_selected "1-0" (Ex.image "1-0" "a.png") Ex.one_selected);
    reflexivity.
Defined.

Lemma removeImage_consistent rid st : consistent st -> consistent (removeImage rid st).
Proof.
  intros [Hpage [Hok Hsome]].
  set (updated := filter (fun img => negb (String.eqb (id img) rid)) (images st)).
  unfold removeImage, handleImagesChange. fold updated.
  destruct (selectedImage st) as [s|] eqn:Hsel.
  - destruct (String.eqb_spec (id s) rid) as [Heq|Hne].
    + destruct updated as [|first rest] eqn:Hup; (split; [reflexivity|]); split;
        simpl; try congruence;
        unfold selection_ok; simpl; rewrite ?String.eqb_refl; reflexivity.
    + assert (Hkeep : selection_ok (setPageImages updated (setImages updated st)) = true).
      { destruct (selection_ok_inv s st Hsel Hok) as [img [Hin Hid]].
        apply (selection_ok_id s img); [exact Hsel| |exact Hid].
        apply filter_In. split; [now rewrite <- Hpage|].
        rewrite Hid.
        destruct (String.eqb_spec (id s) rid); [contradiction | reflexivity]. }
      destruct updated; (split; [reflexivity|]); (split; [exact Hkeep|]);
        simpl; rewrite Hsel; congruence.
  - destruct updated as [|first rest]; (split; [reflexivity|]); split;
      simpl; try congruence;
      unfold selection_ok; simpl; rewrite ?Hsel, ?String.eqb_refl; reflexivity.
Qed.

Lemma selectImage_consistent image st :
  consistent st -> In image (images st) -> consistent (selectImage image st).
Proof.
  intros [Hpage [_ _]] Hin. split; [exact Hpage|]. split.
  - apply (selection_ok_member image); [reflexivity|]. simpl. now rewrite Hpage.
  - simpl. congruence.
Qed.

Lemma submit_consistent maxImages files events st :
  consistent st ->
  all_complete (toProcess maxImages files st) events ->
  consistent (submit maxImages files events st).
Proof.
  intros Hc Hall. pose proof Hc as [Hpage [Hok Hsome]].
  rewrite submit_state by exact Hall.
  pose proof (all_complete_valid _ _ Hall) as [Hv Hlen].
  destruct (toProcess maxImages files st) as [|f ftp] eqn:E; [exact Hc|].
  set (updated := images st ++ completed (f :: ftp) events).
  assert (Hne : updated <> []).
  { intros H. apply (f_equal (@List.length _)) in H. unfold updated in H.
    rewrite length_app, completed_length, Hlen in H by exact Hv. simpl in H. lia. }
  unfold handleImagesChange.
  destruct updated as [|first rest] eqn:Hup; [contradiction|].
  destruct (selectedImage st) as [s|] eqn:Hsel.
  - split; [reflexivity|]. split; [|simpl; rewrite Hsel; congruence].
    destruct (selection_ok_inv s st Hsel Hok) as [img [Hin Hid]].
    apply (selection_ok_id s img); [exact Hsel| |exact Hid].
    change (In img (first :: rest)).
    rewrite <- Hup. unfold updated. apply in_or_app. left. now rewrite <- Hpage.
  - split; [reflexivity|]. split; [|simpl; congruence].
    apply (selection_ok_member first); [reflexivity | now left].
Qed.

(** Submitting, removing and selecting an image of the batch keep the
    state consistent: the selection is nothing or an image of the batch. *)
Theorem consistent_preserved st :
  consistent st ->
  (forall maxImages files events,
     all_complete (toProcess maxImages files st) events ->
     consistent (submit maxImages files events st))
  /\ (forall rid, consistent (removeImage rid st))
  /\ (forall image, In image (images st) -> consistent (selectImage image st)).
Proof.
  intros Hc. split; [|split].
  - intros. now apply submit_consistent.
  - intros. now apply removeImage_consistent.
  - intros. now apply selectImage_consistent.
Qed.

Lemma consistent_preserved_witness :
  consistent initial
  /\ (forall maxImages files events,
        all_complete (toProcess maxImages files initial) events ->
        consistent (submit maxImages files events initial))
  /\ (forall rid, consistent (removeImage rid initial))
  /\ (forall image, In image (images initial) -> consistent (selectImage image initial)).
Proof.
  assert (H : consistent initial).
  { split; [reflexivity|]. split; [reflexivity|]. intros H. now contradiction H. }
  split; [exact H|]. exact (consistent_preserved initial H).
Defined.

(** "Clear Batch" leaves whatever was selected selected, over an empty
    batch. *)
Theorem clearBatch_state st :
  images (clearBatch st) = []
  /\ pageImages (clearBatch st) = []
  /\ selectedImage (clearBatch st) = selectedImage st
  /\ selection_ok (clearBatch st)
     = match selectedImage st with Some _ => false | None => true end.
Proof.
  unfold clearBatch, handleImagesChange, selection_ok. simpl.
  destruct (selectedImage st); repeat split.
Qed.

(** Every operation, "Clear Batch" included, leaves a batch that is not
    empty with a selection: from the initial state on, an image is removed
    from a batch in which some image is selected. *)
Theorem has_default_preserved st :
  has_default st ->
  (forall maxImages files events,
     all_complete (toProcess maxImages files st) events ->
     has_default (submit maxImages files events st))
  /\ (forall rid, has_default (removeImage rid st))
  /\ (forall image, has_default (selectImage image st))
  /\ has_default (clearBatch st).
Proof.
  intros Hd. repeat split.
  - intros maxImages files events Hall. rewrite submit_state by exact Hall.
    destruct (toProcess maxImages files st); [exact Hd|].
    unfold has_default, handleImagesChange.
    destruct (images st ++ _) eqn:E, (selectedImage st) eqn:Hsel; simpl;
      rewrite ?Hsel; congruence.
  - intros rid. unfold has_default, removeImage, handleImagesChange.
    destruct (selectedImage st) as [s|] eqn:Hsel.
    + destruct (String.eqb (id s) rid), (filter _ (images st)); simpl;
        rewrite ?Hsel; congruence.
    + destruct (filter _ (images st)); simpl; rewrite ?Hsel; congruence.
  - intros image _. simpl. congruence.
  - intros H. simpl in H. unfold clearBatch, handleImagesChange in H.
    destruct (selectedImage st); simpl in H; congruence.
Qed.

Lemma has_default_preserved_witness :
  has_default Ex.two_selected
  /\ (forall maxImages files events,
        all_complete (toProcess maxImages files Ex.two_selected) events ->
        has_default (submit maxImages files events Ex.two_selected))
  /\ (forall rid, has_default (removeImage rid Ex.two_selected))
  /\ (forall image, has_default (selectImage image Ex.two_selected))
  /\ has_default (clearBatch Ex.two_selected).
Proof.
  assert (H : has_default Ex.two_selected) by (intros _; simpl; discriminate).
  split; [exact H|]. exact (has_default_preserved Ex.two_selected H).
Defined.

End Consistency.

Section Formats.
Import Upload Analysis.

Lemma list_sum_perm l1 l2 : Permutation l1 l2 -> list_sum l1 = list_sum l2.
Proof. induction 1; simpl; lia. Qed.

Lemma sum_set k v (o : JS.obj nat) :
  list_sum (map snd (JS.set k v o)) + match JS.get k o with Some n => n | None => 0 end
  = list_sum (map snd o) + v.
Proof.
  induction o as [|[k' v'] o IH]; simpl; [lia|].
  destruct (String.eqb k' k); simpl; lia.
Qed.

Lemma sum_countFormat acc img :
  list_sum (map snd (countFormat acc img)) = list_sum (map snd acc) + 1.
Proof.
  unfold countFormat.
  pose proof (sum_set (ext img)
                (match JS.get (ext img) acc with Some (S n) => S n | _ => 0 end + 1)
                acc) as H.
  destruct (JS.get (ext img) acc) as [[|n]|]; lia.
Qed.

Lemma sum_fold_countFormat images : forall acc,
  list_sum (map snd (fold_left countFormat images acc))
  = list_sum (map snd acc) + List.length images.
Proof.
  induction images as [|img images IH]; intros acc; simpl; [lia|].
  rewrite IH, sum_countFormat. lia.
Qed.

(** The counts of the format distribution add up to the number of images
    of the batch. *)
Theorem formatAnalysis_counts_sum (images : list UploadedImage) :
  list_sum (map snd (formatAnalysis images)) = List.length images.
Proof.
  unfold formatAnalysis.
  rewrite (list_sum_perm _ _ (Permutation_map snd (entries_perm _))).
  now rewrite sum_fold_countFormat.
Qed.

Lemma split_without_sep sep s :
  (forall c, In c (list_ascii_of_string s) -> c <> sep) -> JS.split sep s = [s].
Proof.
  induction s as [|c s IH]; intros H; simpl; [reflexivity|].
  destruct (Ascii.eqb_spec c sep) as [Heq|_].
  - exfalso. apply (H c); [now left | exact Heq].
  - rewrite IH; [reflexivity|]. intros c' Hc'. apply H. now right.
Qed.

(** A name that is not empty and has no dot is its own format, in upper
    case. *)
Theorem ext_without_dot (img : UploadedImage) :
  name img <> EmptyString ->
  (forall c, In c (list_ascii_of_string (name img)) -> c <> "."%char) ->
  ext img = JS.toUpperCase (name img).
Proof.
  intros Hne Hdot. unfold ext. rewrite split_without_sep by exact Hdot. simpl.
  destruct (name img); [contradiction | reflexivity].
Qed.

Lemma ext_without_dot_witness :
  name (Ex.image "1-0" "README") <> EmptyString
  /\ (forall c, In c (list_ascii_of_string (name (Ex.image "1-0" "README"))) ->
                c <> "."%char)
  /\ ext (Ex.image "1-0" "README") = JS.toUpperCase (name (Ex.image "1-0" "README")).
Proof.
  assert (H1 : name (Ex.image "1-0" "README") <> EmptyString) by (simpl; discriminate).
  assert (H2 : forall c, In c (list_ascii_of_string (name (Ex.image "1-0" "README"))) ->
                         c <> "."%char).
  { simpl. intros c H. repeat destruct H as [<-|H]; try discriminate. contradiction. }
  split; [exact H1|]. split; [exact H2|].
  exact (ext_without_dot (Ex.image "1-0" "README") H1 H2).
Defined.

Lemma upper_char_not_lower c : Text.is_lower (JS.upper_char c) = false.
Proof. destruct c as [[] [] [] [] [] [] [] []]; reflexivity. Qed.

Lemma toUpperCase_no_lower s : Text.has_lower (JS.toUpperCase s) = false.
Proof.
  unfold Text.has_lower.
  induction s as [|c s IH]; simpl; [reflexivity|].
  now rewrite upper_char_not_lower.
Qed.

(** An upper-cased string is no name of a member of [Object.prototype]
    (each of those has a lower-case letter): [formatAnalysis] never reads
    an inherited property. *)
Lemma toUpperCase_not_inherited s : JS.inherited (JS.toUpperCase s) = false.
Proof.
  destruct (JS.inherited (JS.toUpperCase s)) eqn:E; [|reflexivity].
  unfold JS.inherited in E. apply existsb_exists in E as [k [Hk Heq]].
  apply String.eqb_eq in Heq.
  assert (Hall : forallb Text.has_lower JS.prototypeKeys = true) by reflexivity.
  rewrite forallb_forall in Hall. specialize (Hall k Hk).
  rewrite <- Heq, toUpperCase_no_lower in Hall. discriminate.
Qed.

Lemma ext_not_inherited img : JS.inherited (ext img) = false.
Proof.
  unfold ext.
  destruct (JS.pop (JS.split "." (name img))) as [s|]; simpl; [|reflexivity].
  pose proof (toUpperCase_not_inherited s) as H.
  destruct (JS.toUpperCase s); [reflexivity | exact H].
Qed.

End Formats.

Section Averages.
Import Upload Analysis Distribution.

(** [Math.round] at the ties and at the borders of its cases. *)
Lemma Math_round_examples :
  (JS.Math_round 0.5 = 1
   /\ JS.Math_round 2.5 = 3
   /\ JS.Math_round (-0.5) = neg_zero
   /\ JS.Math_round (-2.5) = -2
   /\ JS.Math_round 0.49999999999999994 = 0
   /\ JS.Math_round 69.5 = 70
   /\ JS.Math_round 4503599627370495.5 = 4503599627370496
   /\ JS.Math_round nan = nan
   /\ JS.Math_round infinity = infinity)%float.
Proof. repeat split; vm_compute; reflexivity. Qed.

(** When the analysis has an image and every image has a detection, the
    dashboard's average confidence is the two-level average: the mean of the
    images' mean confidences, as a rounded percentage. *)
Theorem averageConfidence_two_level (selectedImage : option UploadedImage)
    (r : AnalysisResult) :
  images r <> [] ->
  Forall (fun img => detections img <> []) (images r) ->
  averageConfidence (dashboard (analysisData selectedImage (Some r)))
  = two_level_average r.
Proof.
  intros Hne Hall. unfold two_level_average.
  rewrite filter_all.
  - unfold analysisData. cbn [dashboard averageConfidence].
    destruct (images r) as [|img imgs]; [contradiction | reflexivity].
  - intros img Hin. rewrite Forall_forall in Hall. specialize (Hall img Hin).
    destruct (detections img); [contradiction | reflexivity].
Qed.

Lemma averageConfidence_two_level_witness :
  images Ex.ten_and_one <> []
  /\ Forall (fun img => detections img <> []) (images Ex.ten_and_one)
  /\ averageConfidence (dashboard (analysisData None (Some Ex.ten_and_one)))
     = two_level_average Ex.ten_and_one.
Proof.
  assert (H1 : images Ex.ten_and_one <> []) by (simpl; discriminate).
  assert (H2 : Forall (fun img => detections img <> []) (images Ex.ten_and_one)).
  { repeat constructor; simpl; discriminate. }
  split; [exact H1|]. split; [exact H2|].
  exact (averageConfidence_two_level None Ex.ten_and_one H1 H2).
Defined.

End Averages.

(** ** More on the intake *)

Section IntakeMore.
Import Upload Spec Handlers.

(** The progress bar while decodes are outstanding. *)
Lemma run_progress events : forall st p,
  events <> [] ->
  Forall (fun ev => index ev < List.length (filesToProcess p)) events ->
  List.length (newImages p) + List.length events < List.length (filesToProcess p) ->
  fst (run events (st, p))
  = setUploadProgress
      (JS.of_nat (List.length (newImages p) + List.length events)
       / JS.of_nat (List.length (filesToProcess p)) * 100)%float st.
Proof.
  intros st p Hne Hv Hlen.
  destruct (exists_last Hne) as [evs [ev ->]].
  apply Forall_app in Hv as [Hevs Hev]. inversion Hev as [|? ? Hi _]; subst.
  rewrite length_app in Hlen |- *. simpl in Hlen |- *.
  destruct (run_pending evs st p Hevs) as [pr Hrun]; [lia|].
  rewrite run_snoc, Hrun.
  apply nth_error_Some in Hi.
  destruct (nth_error (filesToProcess p) (index ev)) as [f|] eqn:E; [|contradiction].
  unfold img_onload. cbn [filesToProcess newImages]. rewrite E.
  rewrite !length_app, completed_length by exact Hevs. simpl List.length.
  destruct (Nat.eqb_spec (List.length (newImages p) + List.length evs + 1)
                         (List.length (filesToProcess p))) as [Heq|_]; [lia|].
  rewrite Nat.add_assoc. destruct st; reflexivity.
Qed.

Lemma submitOf_current maxImages files events st :
  submitOf st maxImages files events st = submit maxImages files events st.
Proof. reflexivity. Qed.

Lemma dropped_submitOf maxImages files events st :
  dropped maxImages files events st = submitOf initial maxImages files events st.
Proof. reflexivity. Qed.

(** While fewer decodes have completed than were started, in whatever
    order, nothing is published: both copies of the batch and the selection
    are as before the submission, [uploading] is on, and the progress is the
    share of completed decodes as a percentage.  A decode that never
    completes (the code registers no error handler) leaves the submission
    in this state.  This holds for the closure of any render [env]: for
    [submit], where it is the current one, and for a drop, where it is the
    first. *)
Theorem submit_partial env maxImages files events st :
  Forall (fun ev => index ev < List.length (toProcess maxImages files env)) events ->
  List.length events < List.length (toProcess maxImages files env) ->
  let st' := submitOf env maxImages files events st in
  images st' = images st
  /\ pageImages st' = pageImages st
  /\ selectedImage st' = selectedImage st
  /\ uploading st' = true
  /\ uploadProgress st'
     = match events with
       | [] => zero
       | _ => (JS.of_nat (List.length events)
               / JS.of_nat (List.length (toProcess maxImages files env)) * 100)%float
       end.
Proof.
  intros Hv Hlen st'. subst st'. unfold submitOf, processFilesOf.
  destruct (toProcess maxImages files env) as [|f ftp] eqn:E; [simpl in Hlen; lia|].
  destruct events as [|ev evs].
  - repeat split.
  - rewrite run_progress; [repeat split| discriminate | exact Hv | exact Hlen].
Qed.

Lemma submit_partial_witness :
  Forall (fun ev => index ev < List.length (toProcess 10 Cases.three_files initial))
         Cases.one_loaded
  /\ List.length Cases.one_loaded < List.length (toProcess 10 Cases.three_files initial)
  /\ images (submitOf initial 10 Cases.three_files Cases.one_loaded Ex.two_selected)
     = images Ex.two_selected
  /\ pageImages (submitOf initial 10 Cases.three_files Cases.one_loaded Ex.two_selected)
     = pageImages Ex.two_selected
  /\ selectedImage (submitOf initial 10 Cases.three_files Cases.one_loaded Ex.two_selected)
     = selectedImage Ex.two_selected
  /\ uploading (submitOf initial 10 Cases.three_files Cases.one_loaded Ex.two_selected)
     = true
  /\ uploadProgress (submitOf initial 10 Cases.three_files Cases.one_loaded Ex.two_selected)
     = match Cases.one_loaded with
       | [] => zero
       | _ => (JS.of_nat (List.length Cases.one_loaded)
               / JS.of_nat (List.length (toProcess 10 Cases.three_files initial)) * 100)%float
       end.
Proof.
  assert (H1 : Forall (fun ev => index ev
                                 < List.length (toProcess 10 Cases.three_files initial))
                      Cases.one_loaded).
  { repeat constructor. }
  assert (H2 : List.length Cases.one_loaded
               < List.length (toProcess 10 Cases.three_files initial)).
  { vm_compute. lia. }
  split; [exact H1|]. split; [exact H2|].
  exact (submit_partial initial 10 Cases.three_files Cases.one_loaded Ex.two_selected H1 H2).
Defined.



End IntakeMore.

(** ** Identifiers, removal and the drop handler *)

Section Identifiers.
Import Upload Spec Counts.

Lemma string_of_uint_no_dash d : no_dash (NilEmpty.string_of_uint d).
Proof.
  unfold no_dash.
  induction d; simpl; intros c H; try contradiction;
    (destruct H as [<-|H]; [discriminate | now apply IHd]).
Qed.

Lemma N_toString_no_dash n : no_dash (JS.N_toString n).
Proof. apply string_of_uint_no_dash. Qed.

Lemma N_toString_inj n m : JS.N_toString n = JS.N_toString m -> n = m.
Proof.
  unfold JS.N_toString. intros H.
  apply (f_equal NilEmpty.uint_of_string) in H. rewrite !NilEmpty.usu in H.
  injection H as H. apply (f_equal N.of_uint) in H.
  now rewrite !DecimalN.Unsigned.of_to in H.
Qed.

(** The text before the first dash and the text after it determine each
    other's place. *)
Lemma dash_split (s1 s2 t1 t2 : string) :
  no_dash s1 -> no_dash s2 ->
  (s1 ++ "-" ++ t1)%string = (s2 ++ "-" ++ t2)%string -> s1 = s2 /\ t1 = t2.
Proof.
  revert s2. induction s1 as [|c s1 IH]; intros [|c' s2] H1 H2 H; simpl in H.
  - injection H as H. now split.
  - injection H as Hc _. exfalso. apply (H2 c'); [now left | now symmetry].
  - injection H as Hc _. exfalso. apply (H1 c); [now left | exact Hc].
  - injection H as -> H. destruct (IH s2) as [-> ->]; [| |exact H|now split].
    + intros a Ha. apply H1. now right.
    + intros a Ha. apply H2. now right.
Qed.

Lemma id_uploadedImage_inj f1 f2 e1 e2 :
  id (uploadedImage f1 e1) = id (uploadedImage f2 e2) ->
  now e1 = now e2 /\ index e1 = index e2.
Proof.
  unfold uploadedImage. cbn [id]. intros H.
  apply dash_split in H as [Hn Hi]; try apply N_toString_no_dash.
  apply N_toString_inj in Hn. apply N_toString_inj, Nat2N.inj in Hi. now split.
Qed.

Lemma completed_ids_distinct ftp events :
  NoDup (map index events) -> NoDup (map id (completed ftp events)).
Proof.
  induction events as [|ev evs IH]; simpl; intros Hnd; [constructor|].
  inversion Hnd as [|? ? Hnot Hnd']; subst.
  destruct (nth_error ftp (index ev)) as [f|]; [|now apply IH].
  change (NoDup (id (uploadedImage f ev) :: map id (completed ftp evs))).
  constructor; [|now apply IH].
  intros Hin. apply Hnot.
  apply in_map_iff in Hin as [img [Hid Himg]].
  unfold completed in Himg. apply in_flat_map in Himg as [ev' [Hev' Himg]].
  destruct (nth_error ftp (index ev')) as [f'|]; [|contradiction].
  destruct Himg as [<-|[]].
  apply id_uploadedImage_inj in Hid as [_ Hi]. rewrite <- Hi. now apply in_map.
Qed.

(** The descriptors one submission admits have pairwise distinct ids, and
    each id is the clock reading and the candidate's index at the completion
    of its decode, joined by a dash: two ids are equal only for the same
    reading and the same index. *)
Theorem submission_ids_distinct maxImages files events st :
  all_complete (toProcess maxImages files st) events ->
  NoDup (map id (admitted st (submit maxImages files events st)))
  /\ (forall f1 f2 e1 e2,
        id (uploadedImage f1 e1) = id (uploadedImage f2 e2) ->
        now e1 = now e2 /\ index e1 = index e2).
Proof.
  intros Hall. split; [|apply id_uploadedImage_inj].
  rewrite admitted_submit by exact Hall. apply completed_ids_distinct.
  eapply Permutation_NoDup; [apply Permutation_sym, Hall | apply seq_NoDup].
Qed.

Lemma submission_ids_distinct_witness :
  all_complete (toProcess 10 Ex.two_files initial) Ex.second_first
  /\ NoDup (map id (admitted initial (submit 10 Ex.two_files Ex.second_first initial)))
  /\ (forall f1 f2 e1 e2,
        id (uploadedImage f1 e1) = id (uploadedImage f2 e2) ->
        now e1 = now e2 /\ index e1 = index e2).
Proof.
  assert (H : all_complete (toProcess 10 Ex.two_files initial) Ex.second_first)
    by (vm_compute; apply perm_swap).
  split; [exact H|].
  exact (submission_ids_distinct 10 Ex.two_files Ex.second_first initial H).
Defined.

End Identifiers.

Section Removal.
Import Upload Spec.

Lemma filter_absent rid (l : list UploadedImage) :
  ~ In rid (map id l) ->
  filter (fun img => negb (String.eqb (id img) rid)) l = l.
Proof.
  intros H. apply filter_all. intros img Hin.
  destruct (String.eqb_spec (id img) rid) as [Heq|_]; [|reflexivity].
  exfalso. apply H. rewrite <- Heq. now apply in_map.
Qed.

Lemma removed_absent rid (l : list UploadedImage) :
  ~ In rid (map id (filter (fun img => negb (String.eqb (id img) rid)) l)).
Proof.
  intros H. apply in_map_iff in H as [img [Hid Hin]].
  apply filter_In in Hin as [_ Hneq]. rewrite Hid, String.eqb_refl in Hneq.
  discriminate.
Qed.

Lemma removeImage_images rid st :
  images (removeImage rid st)
  = filter (fun img => negb (String.eqb (id img) rid)) (images st).
Proof.
  unfold removeImage, handleImagesChange.
  destruct (selectedImage st) as [s|];
    [destruct (String.eqb (id s) rid)|]; destruct (filter _ (images st)); reflexivity.
Qed.

(** In a consistent state, removing an id that no image of the batch has
    changes nothing at all, and so removing the same id a second time is
    without effect. *)
Theorem removeImage_absent rid st :
  consistent st ->
  (~ In rid (map id (images st)) -> removeImage rid st = st)
  /\ removeImage rid (removeImage rid st) = removeImage rid st.
Proof.
  assert (Habsent : forall st', consistent st' -> ~ In rid (map id (images st')) ->
                                removeImage rid st' = st').
  { intros st' [Hpage [Hok Hsome]] Hnot.
    unfold removeImage. rewrite (filter_absent _ _ Hnot).
    unfold handleImagesChange.
    destruct (selectedImage st') as [s|] eqn:Hsel.
    - destruct (selection_ok_inv s st' Hsel Hok) as [img [Hin Hid]].
      destruct (String.eqb_spec (id s) rid) as [Heq|_].
      + exfalso. apply Hnot. rewrite <- Heq, <- Hid, <- Hpage. now apply in_map.
      + destruct st'; simpl in *; subst; destruct images0; reflexivity.
    - destruct (images st') as [|first rest] eqn:Himgs.
      + destruct st'; simpl in *; subst; reflexivity.
      + exfalso. apply Hsome; [discriminate | reflexivity]. }
  intros Hc. split; [now apply Habsent|].
  apply Habsent; [now apply removeImage_consistent|].
  rewrite removeImage_images. apply removed_absent.
Qed.

Lemma removeImage_absent_witness :
  consistent Ex.two_selected
  /\ (~ In "9-9"%string (map id (images Ex.two_selected)) ->
      removeImage "9-9" Ex.two_selected = Ex.two_selected)
  /\ removeImage "9-9" (removeImage "9-9" Ex.two_selected)
     = removeImage "9-9" Ex.two_selected.
Proof.
  assert (H : consistent Ex.two_selected).
  { split; [reflexivity|]. split; [reflexivity|]. intros _. simpl. discriminate. }
  split; [exact H|]. exact (removeImage_absent "9-9" Ex.two_selected H).
Defined.

End Removal.

Section Drop.
Import Upload Spec Handlers.

(** [processFiles] of the render that saw the current state. *)
Lemma processFilesOf_current maxImages files st :
  processFilesOf st maxImages files st = processFiles maxImages files st.
Proof. reflexivity. Qed.

Lemma toProcess_initial maxImages files :
  (0 <= maxImages)%Z ->
  toProcess maxImages files initial = firstn (Z.to_nat maxImages) (imageFiles files).
Proof.
  intros H. unfold toProcess, remainingSlots. simpl.
  rewrite Z.sub_0_r. now apply slice0_firstn.
Qed.

Lemma all_complete_NoDup ftp events :
  all_complete ftp events -> NoDup (map index events).
Proof.
  intros H. eapply Permutation_NoDup; [apply Permutation_sym, H | apply seq_NoDup].
Qed.

(** What a drop leaves once its decodes have completed. *)
Lemma dropped_parts maxImages files events st :
  (0 <= maxImages)%Z ->
  all_complete (firstn (Z.to_nat maxImages) (imageFiles files)) events ->
  let ftp := firstn (Z.to_nat maxImages) (imageFiles files) in
  let st' := dropped maxImages files events st in
  (ftp = [] -> st' = st)
  /\ (ftp <> [] ->
      images st' = completed ftp events
      /\ pageImages st' = completed ftp events
      /\ selectedImage st' = hd_error (completed ftp events)
      /\ uploading st' = false
      /\ NoDup (map id (images st'))
      /\ (Z.of_nat (List.length (images st')) <= maxImages)%Z
      /\ consistent st').
Proof.
  intros Hmax Hall ftp st'. subst ftp st'.
  pose proof (all_complete_valid _ _ Hall) as [Hv Hlen].
  pose proof (completed_ids_distinct
                (firstn (Z.to_nat maxImages) (imageFiles files)) events
                (all_complete_NoDup _ _ Hall)) as Hids.
  unfold dropped, handleDrop, processFilesOf. cbn [fst snd].
  rewrite (toProcess_initial _ _ Hmax).
  destruct (firstn (Z.to_nat maxImages) (imageFiles files)) as [|f ftp] eqn:E.
  - split; [reflexivity | intros H; now contradiction H].
  - split; [discriminate|]. intros _.
    rewrite run_commit; cbn [filesToProcess newImages capturedImages capturedSelected images];
      [ | exact Hv | intros ->; discriminate | exact Hlen ].
    cbn [app].
    assert (Hne : completed (f :: ftp) events <> []).
    { intros H. apply (f_equal (@List.length _)) in H.
      rewrite completed_length, Hlen in H by exact Hv. discriminate. }
    assert (Hlen' : (Z.of_nat (List.length (completed (f :: ftp) events)) <= maxImages)%Z).
    { rewrite completed_length, Hlen, <- E, length_firstn by exact Hv. lia. }
    unfold handleImagesChange.
    destruct (completed (f :: ftp) events) as [|first rest] eqn:Ec; [contradiction|].
    repeat split; try exact Hlen'; try exact Hids.
    + apply (selection_ok_member first); [reflexivity | now left].
    + simpl. discriminate.
Qed.

(** A drop, or a choice of files, in the running component: the closure
    that handles it is the first render's, which saw an empty batch and no
    selection.  So the first [maxImages] image candidates are taken whatever
    the batch holds, and once their decodes have all completed the batch is
    those descriptors alone, in completion order: the images the batch held
    before are gone.  The first new descriptor becomes the selection,
    whatever was selected; the ids are distinct, and the state is
    consistent, whatever it was.  A drop with no image candidate changes
    nothing. *)
Theorem drop_replaces_batch maxImages files events st :
  (0 <= maxImages)%Z ->
  all_complete (firstn (Z.to_nat maxImages) (imageFiles files)) events ->
  let ftp := firstn (Z.to_nat maxImages) (imageFiles files) in
  let st' := dropped maxImages files events st in
  handleDrop maxImages files (true, st)
  = (false, handleFileSelect maxImages (Some files) st)
  /\ (ftp = [] -> st' = st)
  /\ (ftp <> [] ->
      images st' = completed ftp events
      /\ pageImages st' = completed ftp events
      /\ selectedImage st' = hd_error (completed ftp events)
      /\ uploading st' = false
      /\ NoDup (map id (images st'))
      /\ (Z.of_nat (List.length (images st')) <= maxImages)%Z
      /\ consistent st').
Proof.
  intros Hmax Hall. split; [reflexivity|].
  exact (dropped_parts maxImages files events st Hmax Hall).
Qed.

Lemma drop_replaces_batch_witness :
  (0 <= 10)%Z
  /\ all_complete (firstn (Z.to_nat 10) (imageFiles Cases.one_file)) Cases.first_loaded
  /\ handleDrop 10 Cases.one_file (true, Ex.two_selected)
     = (false, handleFileSelect 10 (Some Cases.one_file) Ex.two_selected)
  /\ (firstn (Z.to_nat 10) (imageFiles Cases.one_file) = [] ->
      dropped 10 Cases.one_file Cases.first_loaded Ex.two_selected = Ex.two_selected)
  /\ (firstn (Z.to_nat 10) (imageFiles Cases.one_file) <> [] ->
      images (dropped 10 Cases.one_file Cases.first_loaded Ex.two_selected)
      = completed (firstn (Z.to_nat 10) (imageFiles Cases.one_file)) Cases.first_loaded
      /\ pageImages (dropped 10 Cases.one_file Cases.first_loaded Ex.two_selected)
         = completed (firstn (Z.to_nat 10) (imageFiles Cases.one_file)) Cases.first_loaded
      /\ selectedImage (dropped 10 Cases.one_file Cases.first_loaded Ex.two_selected)
         = hd_error (completed (firstn (Z.to_nat 10) (imageFiles Cases.one_file))
                               Cases.first_loaded)
      /\ uploading (dropped 10 Cases.one_file Cases.first_loaded Ex.two_selected) = false
      /\ NoDup (map id (images (dropped 10 Cases.one_file Cases.first_loaded
                                        Ex.two_selected)))
      /\ (Z.of_nat (List.length
                      (images (dropped 10 Cases.one_file Cases.first_loaded
                                       Ex.two_selected))) <= 10)%Z
      /\ consistent (dropped 10 Cases.one_file Cases.first_loaded Ex.two_selected)).
Proof.
  assert (H1 : (0 <= 10)%Z) by lia.
  assert (H2 : all_complete (firstn (Z.to_nat 10) (imageFiles Cases.one_file))
                            Cases.first_loaded)
    by (vm_compute; apply Permutation_refl).
  split; [exact H1|]. split; [exact H2|].
  exact (drop_replaces_batch 10 Cases.one_file Cases.first_loaded Ex.two_selected H1 H2).
Defined.

Lemma NoDup_ids_filter (f : UploadedImage -> bool) l :
  NoDup (map id l) -> NoDup (map id (filter f l)).
Proof.
  induction l as [|x l IH]; simpl; intros H; [constructor|].
  inversion H as [|? ? Hnot Hnd]; subst.
  destruct (f x); simpl; [|now apply IH].
  constructor; [|now apply IH].
  intros Hin. apply Hnot. apply in_map_iff in Hin as [y [Hy Hin]].
  apply filter_In in Hin as [Hin _]. rewrite <- Hy. now apply in_map.
Qed.

Lemma dropped_batch_ok maxImages files events st :
  (0 <= maxImages)%Z ->
  batch_ok maxImages st ->
  all_complete (firstn (Z.to_nat maxImages) (imageFiles files)) events ->
  batch_ok maxImages (dropped maxImages files events st).
Proof.
  intros Hmax Hok Hall.
  destruct (dropped_parts maxImages files events st Hmax Hall) as [H0 H1].
  destruct (firstn (Z.to_nat maxImages) (imageFiles files)) as [|f ftp] eqn:E.
  - now rewrite H0.
  - destruct H1 as [Hi [Hp [_ [_ [Hnd [Hle _]]]]]]; [discriminate|].
    split; [now rewrite Hi, Hp|]. now split.
Qed.

(** In the running component the batch stays within capacity and its ids
    stay distinct: a completed drop, removing an image, selecting an image
    and "Clear Batch" each keep both, and keep the two copies of the batch
    equal. *)
Theorem batch_ok_preserved maxImages st :
  (0 <= maxImages)%Z ->
  batch_ok maxImages st ->
  (forall files events,
     all_complete (firstn (Z.to_nat maxImages) (imageFiles files)) events ->
     batch_ok maxImages (dropped maxImages files events st))
  /\ (forall rid, batch_ok maxImages (removeImage rid st))
  /\ (forall image, batch_ok maxImages (selectImage image st))
  /\ batch_ok maxImages (clearBatch st).
Proof.
  intros Hmax Hok. pose proof Hok as [Hpage [Hnd Hle]].
  split; [intros; now apply dropped_batch_ok|].
  split; [|split].
  - intros rid. unfold batch_ok. rewrite removeImage_images. split; [|split].
    + unfold removeImage, handleImagesChange.
      destruct (selectedImage st) as [s|];
        [destruct (String.eqb (id s) rid)|]; destruct (filter _ (images st)); reflexivity.
    + now apply NoDup_ids_filter.
    + pose proof (filter_length_le (fun img => negb (String.eqb (id img) rid)) (images st)).
      lia.
  - intros image. exact Hok.
  - unfold batch_ok, clearBatch, handleImagesChange.
    destruct (selectedImage st); simpl; (split; [reflexivity|]);
      (split; [constructor | lia]).
Qed.

Lemma batch_ok_preserved_witness :
  (0 <= 10)%Z
  /\ batch_ok 10 Ex.two_selected
  /\ (forall files events,
        all_complete (firstn (Z.to_nat 10) (imageFiles files)) events ->
        batch_ok 10 (dropped 10 files events Ex.two_selected))
  /\ (forall rid, batch_ok 10 (removeImage rid Ex.two_selected))
  /\ (forall image, batch_ok 10 (selectImage image Ex.two_selected))
  /\ batch_ok 10 (clearBatch Ex.two_selected).
Proof.
  assert (H1 : (0 <= 10)%Z) by lia.
  assert (H2 : batch_ok 10 Ex.two_selected).
  { split; [reflexivity|]. split.
    - vm_compute. repeat constructor; simpl; intuition discriminate.
    - vm_compute. discriminate. }
  split; [exact H1|]. split; [exact H2|].
  exact (batch_ok_preserved 10 Ex.two_selected H1 H2).
Defined.

End Drop.

(** ** More on the aggregation *)

Section DetectionCounts.
Import Upload Analysis Distribution Counts.

Lemma fold_countDetection_own ds :
  Forall (fun d => JS.inherited (class_name d) = false) ds ->
  fold_left countDetection ds []
  = tabulate (group_data ds) (first_seen (map class_name ds)).
Proof.
  induction ds as [|d ds IH] using rev_ind; intros H; [reflexivity|].
  apply Forall_app in H as [Hds Hd]. inversion Hd as [|? ? Hinh _]; subst.
  rewrite fold_left_app. simpl. rewrite IH by exact Hds.
  now apply countDetection_tabulate.
Qed.

(** A detection whose label names a member of [Object.prototype] leaves
    the dictionary as it is. *)
Lemma fold_countDetection_skip ds : forall acc,
  fold_left countDetection ds acc
  = fold_left countDetection
      (filter (fun d => negb (JS.inherited (class_name d))) ds) acc.
Proof.
  induction ds as [|d ds IH]; intros acc; simpl; [reflexivity|].
  unfold countDetection at 2.
  destruct (JS.inherited (class_name d)) eqn:E; simpl.
  - apply IH.
  - rewrite IH. unfold countDetection at 3. now rewrite E.
Qed.

Lemma groupDetections_own r :
  groupDetections r
  = tabulate (group_data (ownDetections r))
             (first_seen (map class_name (ownDetections r))).
Proof.
  rewrite groupDetections_flat, fold_countDetection_skip.
  apply fold_countDetection_own. unfold ownDetections.
  apply Forall_forall. intros d Hd. apply filter_In in Hd as [_ Hd].
  now destruct (JS.inherited (class_name d)).
Qed.

Lemma rows_perm_by_label r :
  Permutation (detectionData (Some r)) (by_label (ownDetections r)).
Proof.
  unfold detectionData, by_label.
  eapply Permutation_trans; [apply sort_desc_perm|].
  rewrite <- toRow_tabulate, <- groupDetections_own.
  apply Permutation_map, entries_perm.
Qed.

Lemma list_sum_cons a l : list_sum (a :: l) = a + list_sum l.
Proof. reflexivity. Qed.

Lemma group_sizes_sum (ls : list string) (ds : list Detection) :
  NoDup ls ->
  (forall d, In d ds -> In (class_name d) ls) ->
  list_sum (map (fun l => List.length (group_of l ds)) ls) = List.length ds.
Proof.
  intros Hnd. induction ds as [|d ds IH]; intros Hin.
  - induction ls as [|l ls IHl]; simpl; [reflexivity|].
    inversion Hnd; subst. now apply IHl.
  - assert (Hone : forall ks, NoDup ks ->
              list_sum (map (fun l => List.length (group_of l (d :: ds))) ks)
              = list_sum (map (fun l => List.length (group_of l ds)) ks)
                + (if existsb (String.eqb (class_name d)) ks then 1 else 0)).
    { induction ks as [|k ks IHk]; intros Hk; [reflexivity|].
      inversion Hk as [|? ? Hnot Hk']; subst.
      rewrite !map_cons, !list_sum_cons, (IHk Hk'). cbn [existsb].
      assert (Hk1 : List.length (group_of k (d :: ds))
                    = List.length (group_of k ds)
                      + (if String.eqb (class_name d) k then 1 else 0)).
      { unfold group_of. cbn [filter].
        destruct (String.eqb (class_name d) k); simpl; lia. }
      rewrite Hk1.
      destruct (String.eqb_spec (class_name d) k) as [->|Hne]; cbn [orb].
      - assert (Hex : existsb (String.eqb k) ks = false).
        { destruct (existsb (String.eqb k) ks) eqn:E; [|reflexivity].
          apply existsb_eqb_In in E. contradiction. }
        rewrite Hex. lia.
      - lia. }
    rewrite (Hone ls Hnd), IH by (intros d' Hd'; apply Hin; now right).
    assert (Hex : existsb (String.eqb (class_name d)) ls = true).
    { apply existsb_eqb_In, Hin. now left. }
    rewrite Hex. simpl. lia.
Qed.

Lemma detectionCount_length (imgs : list ImageAnalysis) : forall n,
  fold_left (fun total img => total + List.length (detections img)) imgs n
  = n + List.length (flat_map detections imgs).
Proof.
  induction imgs as [|img imgs IH]; intros n; simpl; [lia|].
  rewrite IH, length_app. lia.
Qed.

(** The dashboard's detection count is the number of detections of all
    images.  The counts of the detection distribution add up to the number
    of detections whose label is not the name of a member of
    [Object.prototype]: to the dashboard's count when there is no such
    label, and to less otherwise. *)
Theorem detection_counts_sum (selectedImage : option UploadedImage)
    (r : AnalysisResult) :
  let total := detectionCount (dashboard (analysisData selectedImage (Some r))) in
  total = List.length (allDetections r)
  /\ list_sum (map rowCount (detectionData (Some r))) = List.length (ownDetections r)
  /\ list_sum (map rowCount (detectionData (Some r))) <= total
  /\ (list_sum (map rowCount (detectionData (Some r))) = total
      <-> Forall (fun d => JS.inherited (class_name d) = false) (allDetections r)).
Proof.
  intros total. subst total.
  assert (Htotal : detectionCount (dashboard (analysisData selectedImage (Some r)))
                   = List.length (allDetections r)).
  { unfold analysisData. cbn [dashboard detectionCount].
    now rewrite detectionCount_length. }
  assert (Hsum : list_sum (map rowCount (detectionData (Some r)))
                 = List.length (ownDetections r)).
  { rewrite (list_sum_perm _ _ (Permutation_map rowCount (rows_perm_by_label r))).
    unfold by_label. rewrite map_map. cbn [label_row rowCount].
    apply group_sizes_sum; [apply NoDup_first_seen|].
    intros d Hd. apply in_first_seen. now apply in_map. }
  rewrite Htotal, Hsum. unfold ownDetections.
  split; [reflexivity|]. split; [reflexivity|]. split; [apply filter_length_le|].
  generalize (allDetections r). intros ds. split.
  - induction ds as [|d ds IH]; simpl; intros H; [constructor|].
    pose proof (filter_length_le (fun d => negb (JS.inherited (class_name d))) ds).
    destruct (JS.inherited (class_name d)) eqn:E; simpl in H; [lia|].
    constructor; [exact E | apply IH; lia].
  - intros H. rewrite filter_all; [reflexivity|].
    rewrite Forall_forall in H. intros d Hd. now rewrite (H d Hd).
Qed.

(** Whatever the labels: the detection distribution has one row for each
    distinct label that is not the name of a member of [Object.prototype],
    with that label's count and mean, and no row has a count of zero, so
    that no row's mean divides by zero. *)
Theorem detectionData_rows (r : AnalysisResult) :
  Permutation (detectionData (Some r)) (by_label (ownDetections r))
  /\ List.length (detectionData (Some r))
     = List.length (first_seen (map class_name (ownDetections r)))
  /\ Forall (fun row => 1 <= rowCount row) (detectionData (Some r)).
Proof.
  pose proof (rows_perm_by_label r) as Hp.
  split; [exact Hp|]. split.
  - rewrite (Permutation_length Hp). unfold by_label. apply length_map.
  - eapply Permutation_Forall; [apply Permutation_sym, Hp|].
    unfold by_label. apply Forall_map, Forall_forall. intros l Hl.
    cbn [label_row rowCount].
    apply in_first_seen, in_map_iff in Hl as [d [Hc Hd]].
    assert (Hin : In d (group_of l (ownDetections r))).
    { apply filter_In. split; [exact Hd|]. rewrite Hc. apply String.eqb_refl. }
    destruct (group_of l (ownDetections r)); [contradiction | simpl; lia].
Qed.

End DetectionCounts.

Section FormatCounts.
Import Upload Analysis Distribution Counts.

Lemma format_count_snoc images img e :
  format_count (images ++ [img]) e
  = format_count images e + (if String.eqb (ext img) e then 1 else 0).
Proof.
  unfold format_count. rewrite filter_app, length_app. simpl.
  destruct (String.eqb (ext img) e); reflexivity.
Qed.

Lemma format_count_absent images e :
  existsb (String.eqb e) (map ext images) = false -> format_count images e = 0.
Proof.
  intros H. unfold format_count. rewrite filter_none; [reflexivity|].
  intros img Hin.
  destruct (String.eqb_spec (ext img) e) as [Heq|_]; [|reflexivity].
  assert (Hi : In e (map ext images)) by (rewrite <- Heq; now apply in_map).
  apply existsb_eqb_In in Hi. congruence.
Qed.

(** One more image: its format's entry is created with 1 or incremented. *)
Lemma countFormat_tabulate images img :
  countFormat (tabulate (format_count images) (first_seen (map ext images))) img
  = tabulate (format_count (images ++ [img]))
             (first_seen (map ext (images ++ [img]))).
Proof.
  unfold countFormat. rewrite get_tabulate, map_app.
  change (map ext [img]) with [ext img]. rewrite first_seen_snoc.
  assert (Hother : forall k, k <> ext img ->
                             format_count (images ++ [img]) k = format_count images k).
  { intros k Hk. rewrite format_count_snoc.
    destruct (String.eqb_spec (ext img) k) as [Heq|_]; [|lia]. now symmetry in Heq. }
  assert (Hself : format_count (images ++ [img]) (ext img)
                  = format_count images (ext img) + 1).
  { now rewrite format_count_snoc, String.eqb_refl. }
  assert (Htruthy : forall n, match Some n with Some (S m) => S m | _ => 0 end = n).
  { intros [|n]; reflexivity. }
  destruct (existsb (String.eqb (ext img)) (first_seen (map ext images))) eqn:Efs.
  - assert (Hin : In (ext img) (map ext images)).
    { apply in_first_seen. now apply existsb_eqb_In. }
    pose proof Hin as Hex. apply existsb_eqb_In in Hex. rewrite Hex, Htruthy.
    apply set_tabulate_old.
    + apply NoDup_first_seen.
    + now apply in_first_seen.
    + exact Hself.
    + exact Hother.
  - assert (Hex : existsb (String.eqb (ext img)) (map ext images) = false).
    { destruct (existsb _ (map ext images)) eqn:E; [|reflexivity].
      apply existsb_eqb_In, in_first_seen, existsb_eqb_In in E. congruence. }
    rewrite Hex, set_tabulate_new by exact Efs.
    unfold tabulate. rewrite map_app. simpl. f_equal.
    + apply map_ext_in. intros k Hk. f_equal. symmetry. apply Hother.
      intros ->. apply existsb_eqb_In in Hk. congruence.
    + now rewrite Hself, (format_count_absent _ _ Hex).
Qed.

Lemma fold_countFormat images :
  fold_left countFormat images [] = formats_first_seen images.
Proof.
  unfold formats_first_seen.
  induction images as [|img images IH] using rev_ind; [reflexivity|].
  rewrite fold_left_app. simpl. rewrite IH. apply countFormat_tabulate.
Qed.

(** The format distribution lists each format of the batch once, with the
    number of images of that format, which is at least 1; without a format
    that is an array index (as ["7"] for [scan.7] is), the formats are in
    first-seen order. *)
Theorem formatAnalysis_counts (images : list UploadedImage) :
  Permutation (formatAnalysis images) (formats_first_seen images)
  /\ NoDup (map fst (formatAnalysis images))
  /\ (forall e n, In (e, n) (formatAnalysis images) ->
        n = format_count images e /\ 1 <= n /\ In e (map ext images))
  /\ (Forall (fun img => JS.isArrayIndex (ext img) = false) images ->
      formatAnalysis images = formats_first_seen images).
Proof.
  assert (Hp : Permutation (formatAnalysis images) (formats_first_seen images)).
  { unfold formatAnalysis. rewrite fold_countFormat. apply entries_perm. }
  assert (Hkeys : map fst (formats_first_seen images) = first_seen (map ext images)).
  { unfold formats_first_seen, tabulate. rewrite map_map. apply map_id. }
  split; [exact Hp|]. split; [|split].
  - eapply Permutation_NoDup; [apply Permutation_map, Permutation_sym, Hp|].
    rewrite Hkeys. apply NoDup_first_seen.
  - intros e n Hin. apply (Permutation_in _ Hp) in Hin.
    unfold formats_first_seen, tabulate in Hin.
    apply in_map_iff in Hin as [k [Heq Hk]]. injection Heq as -> <-.
    rewrite in_first_seen in Hk. split; [reflexivity|]. split; [|exact Hk].
    apply in_map_iff in Hk as [img [He Himg]].
    assert (Hf : In img (filter (fun i => String.eqb (ext i) e) images)).
    { apply filter_In. split; [exact Himg|]. rewrite He. apply String.eqb_refl. }
    unfold format_count.
    destruct (filter (fun i => String.eqb (ext i) e) images); [contradiction|simpl; lia].
  - intros Hplain. unfold formatAnalysis. rewrite fold_countFormat.
    apply entries_creation_order. intros p Hin.
    unfold formats_first_seen, tabulate in Hin.
    apply in_map_iff in Hin as [k [<- Hk]]. simpl.
    apply in_first_seen, in_map_iff in Hk as [img [<- Himg]].
    rewrite Forall_forall in Hplain. now apply Hplain.
Qed.

(** [currentImageAnalysis] is the first entry of the analysis whose name is
    the selected image's: with two entries of one name the later is never
    found; there is none when nothing is selected or no entry has the
    name. *)
Theorem currentImageAnalysis_first_match (selectedImage : option UploadedImage)
    (r : AnalysisResult) (c : ImageAnalysis) :
  currentImageAnalysis selectedImage (Some r) = Some c
  <-> exists s before after,
        selectedImage = Some s
        /\ Analysis.images r = before ++ c :: after
        /\ image_name c = name s
        /\ Forall (fun e => image_name e <> name s) before.
Proof.
  unfold currentImageAnalysis. destruct selectedImage as [s|].
  - generalize (Analysis.images r). intros l. split.
    + induction l as [|e l IH]; simpl; [discriminate|].
      destruct (String.eqb_spec (image_name e) (name s)) as [Heq|Hne].
      * intros H. injection H as ->. exists s, [], l. repeat split; [exact Heq | constructor].
      * intros H. destruct (IH H) as [s' [before [after [Hs [Hl [Hn Hb]]]]]].
        injection Hs as <-.
        exists s, (e :: before), after. rewrite Hl. repeat split; [exact Hn|].
        now constructor.
    + intros [s' [before [after [Hs [Hl [Hn Hb]]]]]]. injection Hs as <-. subst l.
      induction Hb as [|e before He _ IH]; simpl.
      * rewrite Hn, String.eqb_refl. reflexivity.
      * destruct (String.eqb_spec (image_name e) (name s)); [contradiction | exact IH].
  - split.
    + intros H. exfalso. induction (Analysis.images r); simpl in H; [discriminate | auto].
    + intros [s [_ [_ [Hs _]]]]. discriminate.
Qed.

End FormatCounts.
